(** * google-maps-mcp-server: tool handlers, session routing and configuration

    A shallow embedding of [src/index.ts], [src/googleMaps.ts] and
    [src/config.ts].  JavaScript values keep the distinction between
    [undefined], [null] and a present value; numbers are IEEE-754 binary64
    values, computed with the specification floats of the standard library;
    the session table is a finite map from session id to transport object,
    read through JavaScript property lookup (own properties first, then
    [Object.prototype]). *)

From Stdlib Require Import ZArith String Ascii List Lia Bool.
From Stdlib Require Import Floats.SpecFloat.
From stdpp Require Import gmap strings.
Import ListNotations.

Local Open Scope string_scope.
Local Open Scope Z_scope.
Set Warnings "-register-all".

(** ** JavaScript data *)

Module JS.

(** [T | null | undefined], as the protobuf interfaces type their fields. *)
Inductive maybe (A : Type) : Type :=
| Undefined
| Null
| Just (a : A).
Arguments Undefined {A}.
Arguments Null {A}.
Arguments Just {A} a.

(** [x ?? d] *)
Definition nullish {A} (x : maybe A) (d : A) : A :=
  match x with Just a => a | _ => d end.

(** [x ?? undefined] *)
Definition to_option {A} (x : maybe A) : option A :=
  match x with Just a => Some a | _ => None end.

(** [x?.f] where [f] is itself a nullable field *)
Definition chain {A B} (x : maybe A) (f : A -> maybe B) : maybe B :=
  match x with
  | Just a => f a
  | _ => Undefined
  end.

(** *** Numbers: binary64 *)

Definition number : Type := spec_float.

Definition prec : Z := 53.
Definition emax : Z := 1024.

Definition NaN : number := S754_nan.
Definition of_Z (z : Z) : number := binary_normalize prec emax z 0 false.
Definition add (x y : number) : number := SFadd prec emax x y.
Definition div (x y : number) : number := SFdiv prec emax x y.
Definition neg (x : number) : number := SFopp x.

Definition is_nan (x : number) : bool :=
  match x with S754_nan => true | _ => false end.

(** *** Decimal literals and [Number(string)] *)

Definition is_digit (c : ascii) : bool :=
  let n := nat_of_ascii c in (48 <=? n)%nat && (n <=? 57)%nat.

Definition digit_value (c : ascii) : Z := Z.of_nat (nat_of_ascii c) - 48.

Fixpoint all_digits (s : string) : bool :=
  match s with
  | EmptyString => true
  | String c r => is_digit c && all_digits r
  end.

Fixpoint digits_value (acc : Z) (s : string) : Z :=
  match s with
  | EmptyString => acc
  | String c r => digits_value (10 * acc + digit_value c) r
  end.

(** Longest prefix of decimal digits, and what follows it. *)
Fixpoint span_digits (s : string) : string * string :=
  match s with
  | EmptyString => (EmptyString, EmptyString)
  | String c r =>
      if is_digit c
      then let '(d, k) := span_digits r in (String c d, k)
      else (EmptyString, s)
  end.

(** The mathematical value [m / 10^k] rounded to the nearest binary64,
    ties to even: the value of the decimal literal whose digits, with
    the point removed, spell [m] and which has [k] fraction digits. *)
Definition round_decimal (m : Z) (k : nat) : number :=
  match m with
  | Zpos p =>
      match 10 ^ Z.of_nat k with
      | Zpos q =>
          let '(mz, ez, lz) := SFdiv_core_binary prec emax (Zpos p) 0 (Zpos q) 0 in
          binary_round_aux prec emax false mz ez lz
      | _ => NaN
      end
  | _ => S754_zero false
  end.

(** [digits] or [digits.digits], both parts non-empty. *)
Definition unsigned_decimal (s : string) : option number :=
  let '(ip, r) := span_digits s in
  match ip, r with
  | EmptyString, _ => None
  | _, EmptyString => Some (round_decimal (digits_value 0 ip) 0)
  | _, String "."%char f =>
      if all_digits f && negb (String.eqb f EmptyString)
      then Some (round_decimal (digits_value 0 (ip +:+ f)) (String.length f))
      else None
  | _, _ => None
  end.

(** [Number(s)] on the numeric strings this program meets: an optional
    sign followed by an unsigned decimal literal, and the empty string.
    Every other string is mapped to [NaN]; the forms of ECMAScript's
    StringNumericLiteral left out here (surrounding white space,
    exponents, radix prefixes, [Infinity], a bare leading or trailing
    point) do not occur in the provider's encoding of durations. *)
Definition Number (s : string) : number :=
  match s with
  | EmptyString => S754_zero false
  | String "-"%char r =>
      match unsigned_decimal r with Some x => neg x | None => NaN end
  | String "+"%char r =>
      match unsigned_decimal r with Some x => x | None => NaN end
  | _ => match unsigned_decimal s with Some x => x | None => NaN end
  end.

(** *** Values handed back to the protocol layer *)

Inductive value : Type :=
| VUndefined
| VNull
| VNum (x : number)
| VStr (s : string)
| VArr (xs : list value)
| VObj (fields : list (string * value)).

(** [o.k]: the first field named [k], [undefined] when there is none. *)
Fixpoint get_field (k : string) (fields : list (string * value)) : value :=
  match fields with
  | [] => VUndefined
  | (k', v) :: r => if String.eqb k k' then v else get_field k r
  end.

Definition field (k : string) (v : value) : value :=
  match v with VObj fs => get_field k fs | _ => VUndefined end.

Definition num (x : maybe number) : value :=
  match x with Undefined => VUndefined | Null => VNull | Just n => VNum n end.

Definition str (x : maybe string) : value :=
  match x with Undefined => VUndefined | Null => VNull | Just s => VStr s end.

Definition opt_num (x : option number) : value :=
  match x with None => VUndefined | Some n => VNum n end.

End JS.

Import JS.


(** ** Output schemas (zod) *)

Module Zod.

Inductive schema : Type :=
| string_
| number_
| enum_ (options : list string)
| optional (s : schema)
| array (s : schema)
| object (shape : list (string * schema)).

(** [schema.safeParse(v).success].  Objects are parsed key by key of the
    shape (a missing key reads as [undefined]); keys outside the shape
    are ignored; [z.number()] rejects [NaN]. *)
Fixpoint accepts (z : schema) (v : value) {struct z} : bool :=
  match z with
  | string_ => match v with VStr _ => true | _ => false end
  | number_ => match v with VNum x => negb (is_nan x) | _ => false end
  | enum_ options =>
      match v with VStr s => existsb (String.eqb s) options | _ => false end
  | optional z' =>
      match v with VUndefined => true | _ => accepts z' v end
  | array z' =>
      match v with VArr xs => forallb (accepts z') xs | _ => false end
  | object shape =>
      match v with
      | VObj fields =>
          (fix keys (sh : list (string * schema)) : bool :=
             match sh with
             | [] => true
             | (k, zk) :: r => accepts zk (get_field k fields) && keys r
             end) shape
      | _ => false
      end
  end.

End Zod.

(** ** googleMaps.ts: the provider client wrappers *)

Module GoogleMaps.

(** An [await]ed provider call: the request that is issued and what the
    caller does with the response once it arrives. *)
Record Await (Req Resp A : Type) : Type :=
  { issued : Req; resume : Resp -> A }.
Arguments issued {Req Resp A} _.
Arguments resume {Req Resp A} _ _.

Definition and_then {Req Resp A B} (a : Await Req Resp A) (f : A -> B)
  : Await Req Resp B :=
  {| issued := issued a; resume := fun r => f (resume a r) |}.

(** Running against a provider that answers or rejects; a rejection
    propagates to the caller of the handler. *)
Definition run {Req Resp A} (provider : Req -> string + Resp)
           (a : Await Req Resp A) : string + A :=
  match provider (issued a) with
  | inl err => inl err
  | inr resp => inr (resume a resp)
  end.

(** [xs.join(',')] *)
Fixpoint join (xs : list string) : string :=
  match xs with
  | [] => EmptyString
  | [x] => x
  | x :: r => x +:+ "," +:+ join r
  end.

Inductive DirectionsMode := driving | walking | bicycling | transit.
Inductive RouteTravelMode := DRIVE | WALK | BICYCLE | TRANSIT.

Definition TRAVEL_MODE_MAP (mode : DirectionsMode) : RouteTravelMode :=
  match mode with
  | driving => DRIVE
  | walking => WALK
  | bicycling => BICYCLE
  | transit => TRANSIT
  end.

(** *** Routes v2 messages *)

Record LatLng := { latitude : maybe number; longitude : maybe number }.
Record Location := { latLng : maybe LatLng }.

Inductive SecondsRaw := SecNum (n : number) | SecStr (s : string).
Record Duration := { seconds : maybe SecondsRaw; nanos : maybe number }.
(** A duration arrives as a message or as a string like ["3.5s"]. *)
Inductive DurationValue := DurStr (s : string) | DurMsg (d : Duration).

Record RouteLeg :=
  { startLocation : maybe Location;
    endLocation : maybe Location;
    leg_distanceMeters : maybe number;
    leg_duration : maybe DurationValue }.

Record Route :=
  { distanceMeters : maybe number;
    duration : maybe DurationValue;
    legs : maybe (list RouteLeg) }.

Record ComputeRoutesResponse := { routes : maybe (list Route) }.

Record ComputeRoutesRequest :=
  { origin_address : string;
    destination_address : string;
    travelMode : RouteTravelMode }.

Record Call (Req : Type) := { request : Req; headers : list (string * string) }.
Arguments request {Req} _.
Arguments headers {Req} _.

Definition directions (origin destination : string) (mode : option DirectionsMode)
  : Await (Call ComputeRoutesRequest) ComputeRoutesResponse ComputeRoutesResponse :=
  let mode := default driving mode in
  let request :=
    {| origin_address := origin;
       destination_address := destination;
       travelMode := TRAVEL_MODE_MAP mode |} in
  let fieldMask :=
    join [ "routes.distanceMeters"; "routes.duration";
           "routes.legs.startLocation"; "routes.legs.endLocation";
           "routes.legs.distanceMeters"; "routes.legs.duration" ] in
  {| issued := {| request := request;
                  headers := [("X-Goog-FieldMask", fieldMask)] |};
     resume := fun response => response |}.

(** *** Places v1 messages *)

Record LocalizedText := { text : maybe string }.

Record Place :=
  { id : maybe string;
    displayName : maybe LocalizedText;
    formattedAddress : maybe string;
    location : maybe LatLng;
    rating : maybe number;
    userRatingCount : maybe number;
    primaryType : maybe string;
    internationalPhoneNumber : maybe string;
    websiteUri : maybe string }.

Record SearchTextRequest := { textQuery : string }.
Record SearchTextResponse := { text_places : maybe (list Place) }.

Record Circle := { center : LatLng; radius : number }.
Record SearchNearbyRequest :=
  { maxResultCount : option number;
    includedPrimaryTypes : option (list string);
    locationRestriction : Circle }.
Record SearchNearbyResponse := { nearby_places : maybe (list Place) }.

Record GetPlaceRequest := { name : string }.

Definition places_field_mask : string :=
  join [ "places.id"; "places.displayName"; "places.formattedAddress";
         "places.location"; "places.rating"; "places.userRatingCount";
         "places.primaryType" ].

Definition placesSearchText (textQuery : string)
  : Await (Call SearchTextRequest) SearchTextResponse SearchTextResponse :=
  let req := {| textQuery := textQuery |} in
  {| issued := {| request := req;
                  headers := [("X-Goog-FieldMask", places_field_mask)] |};
     resume := fun resp => resp |}.

Definition placesSearchNearby (center_lat center_lng : number) (radiusMeters : number)
           (opt_includedPrimaryTypes : option (list string))
           (opt_maxResultCount : option number)
  : Await (Call SearchNearbyRequest) SearchNearbyResponse SearchNearbyResponse :=
  let req :=
    {| maxResultCount := opt_maxResultCount;
       includedPrimaryTypes := opt_includedPrimaryTypes;
       locationRestriction :=
         {| center := {| latitude := Just center_lat; longitude := Just center_lng |};
            radius := radiusMeters |} |} in
  {| issued := {| request := req;
                  headers := [("X-Goog-FieldMask", places_field_mask)] |};
     resume := fun resp => resp |}.

(** [placeId.startsWith('places/') ? placeId : `places/${placeId}`] *)
Definition resource_name (placeId : string) : string :=
  if String.prefix "places/" placeId then placeId else "places/" +:+ placeId.

Definition getPlace (placeId : string)
  : Await (Call GetPlaceRequest) Place Place :=
  let name := resource_name placeId in
  let req := {| name := name |} in
  {| issued :=
       {| request := req;
          headers :=
            [("X-Goog-FieldMask",
              join [ "id"; "displayName"; "formattedAddress"; "location";
                     "rating"; "userRatingCount"; "primaryType"; "types";
                     "internationalPhoneNumber"; "websiteUri" ])] |};
     resume := fun place => place |}.

End GoogleMaps.

(** ** index.ts: the registered tools *)

Module Tools.
Import GoogleMaps Zod.

(** The capture group of [/^([0-9]+(?:\.[0-9]+)?)s$/.exec(s)].  The three
    character classes of the pattern are disjoint, so the greedy scan
    below decides the match without backtracking. *)
Definition duration_re_exec (s : string) : option string :=
  let '(ip, r) := span_digits s in
  match ip with
  | EmptyString => None
  | _ =>
      match r with
      | String "s"%char EmptyString => Some ip
      | String "."%char r' =>
          let '(fp, r'') := span_digits r' in
          match fp, r'' with
          | EmptyString, _ => None
          | _, String "s"%char EmptyString => Some (ip +:+ "." +:+ fp)
          | _, _ => None
          end
      | _ => None
      end
  end.

Definition durationToSeconds (duration : option DurationValue) : option number :=
  match duration with
  | None => None
  | Some (DurStr EmptyString) => None
  | Some (DurStr s) =>
      match duration_re_exec s with
      | Some m1 => Some (Number m1)
      | None => None
      end
  | Some (DurMsg d) =>
      let secondsRaw := nullish (seconds d) (SecNum (of_Z 0)) in
      let seconds :=
        match secondsRaw with
        | SecStr s => Number s
        | SecNum n => n
        end in
      let nanos := nullish (nanos d) (of_Z 0) in
      Some (add seconds (div nanos (of_Z 1000000000)))
  end.

(** [n ? a : b] for a length [n]: zero is falsy. *)
Definition if_length {A} (n : nat) (a b : A) : A :=
  match n with O => b | S _ => a end.

(** *** places_search_text *)

Definition place_result_schema : schema :=
  object
    [ ("id", optional string_);
      ("display_name", optional string_);
      ("formatted_address", optional string_);
      ("location", optional (object [("lat", number_); ("lng", number_)]));
      ("rating", optional number_);
      ("user_rating_count", optional number_);
      ("primary_type", optional string_) ].

Definition places_search_text_outputSchema : schema :=
  object [ ("results", array place_result_schema); ("status", string_) ].

Definition places_search_text_handler (query : string)
  : Await (Call SearchTextRequest) SearchTextResponse value :=
  and_then (placesSearchText query) (fun resp =>
    let results :=
      map (fun p : Place =>
             VObj
               [ ("id", str (id p));
                 ("display_name", str (chain (displayName p) text));
                 ("formatted_address", str (formattedAddress p));
                 ("location",
                   match location p with
                   | Just l => VObj [ ("lat", num (latitude l));
                                      ("lng", num (longitude l)) ]
                   | _ => VUndefined
                   end);
                 ("rating", num (rating p));
                 ("user_rating_count", num (userRatingCount p));
                 ("primary_type", str (primaryType p)) ])
          (nullish (text_places resp) []) in
    VObj [ ("results", VArr results);
           ("status", VStr (if_length (length results) "OK" "ZERO_RESULTS")) ]).

(** *** places_search_nearby *)

Definition places_search_nearby_outputSchema : schema :=
  object [ ("results", array place_result_schema); ("status", string_) ].

Record NearbyArgs :=
  { center_lat : number;
    center_lng : number;
    radius_meters : number;
    included_primary_types : option (list string);
    max_result_count : option number }.

Definition places_search_nearby_handler (args : NearbyArgs)
  : Await (Call SearchNearbyRequest) SearchNearbyResponse value :=
  and_then
    (placesSearchNearby (center_lat args) (center_lng args) (radius_meters args)
                        (included_primary_types args) (max_result_count args))
    (fun resp =>
    let results :=
      map (fun p : Place =>
             VObj
               [ ("id", str (id p));
                 ("display_name", str (chain (displayName p) text));
                 ("formatted_address", str (formattedAddress p));
                 ("location",
                   match location p with
                   | Just l => VObj [ ("lat", num (latitude l));
                                      ("lng", num (longitude l)) ]
                   | _ => VUndefined
                   end);
                 ("rating", num (rating p));
                 ("user_rating_count", num (userRatingCount p));
                 ("primary_type", str (primaryType p)) ])
          (nullish (nearby_places resp) []) in
    VObj [ ("results", VArr results);
           ("status", VStr (if_length (length results) "OK" "ZERO_RESULTS")) ]).

(** *** places_get_place *)

Definition places_get_place_outputSchema : schema :=
  object
    [ ("place",
        object
          [ ("id", optional string_);
            ("display_name", optional string_);
            ("formatted_address", optional string_);
            ("location", optional (object [("lat", number_); ("lng", number_)]));
            ("rating", optional number_);
            ("user_rating_count", optional number_);
            ("primary_type", optional string_);
            ("phone", optional string_);
            ("website_uri", optional string_) ]) ].

Definition places_get_place_handler (place_id : string)
  : Await (Call GetPlaceRequest) Place value :=
  and_then (getPlace place_id) (fun p =>
    VObj
      [ ("place",
          VObj
            [ ("id", str (id p));
              ("display_name", str (chain (displayName p) text));
              ("formatted_address", str (formattedAddress p));
              ("location",
                match location p with
                | Just l => VObj [ ("lat", num (latitude l));
                                   ("lng", num (longitude l)) ]
                | _ => VUndefined
                end);
              ("rating", num (rating p));
              ("user_rating_count", num (userRatingCount p));
              ("primary_type", str (primaryType p));
              ("phone", str (internationalPhoneNumber p));
              ("website_uri", str (websiteUri p)) ]) ]).

(** *** directions *)

Definition directions_outputSchema : schema :=
  object
    [ ("routes",
        array
          (object
             [ ("distance_meters", optional number_);
               ("duration_seconds", optional number_);
               ("legs",
                 array
                   (object
                      [ ("start_location",
                          object [("lat", number_); ("lng", number_)]);
                        ("end_location",
                          object [("lat", number_); ("lng", number_)]);
                        ("distance_meters", optional number_);
                        ("duration_seconds", optional number_) ])) ]));
      ("status", string_) ].

Record DirectionsArgs :=
  { origin : string; destination : string; mode : option DirectionsMode }.

Definition directions_handler (args : DirectionsArgs)
  : Await (Call ComputeRoutesRequest) ComputeRoutesResponse value :=
  and_then
    (directions (origin args) (destination args)
                (Some (default driving (mode args))))
    (fun data =>
    VObj
      [ ("routes",
          VArr
            (map (fun route : Route =>
                    VObj
                      [ ("distance_meters", num (distanceMeters route));
                        ("duration_seconds",
                          opt_num (durationToSeconds (to_option (duration route))));
                        ("legs",
                          VArr
                            (map (fun leg : RouteLeg =>
                                    VObj
                                      [ ("start_location",
                                          VObj
                                            [ ("lat", num (chain (chain (startLocation leg) latLng) latitude));
                                              ("lng", num (chain (chain (startLocation leg) latLng) longitude)) ]);
                                        ("end_location",
                                          VObj
                                            [ ("lat", num (chain (chain (endLocation leg) latLng) latitude));
                                              ("lng", num (chain (chain (endLocation leg) latLng) longitude)) ]);
                                        ("distance_meters", num (leg_distanceMeters leg));
                                        ("duration_seconds",
                                          opt_num (durationToSeconds (to_option (leg_duration leg)))) ])
                                 (nullish (legs route) []))) ])
                 (nullish (routes data) [])));
        ("status",
          VStr match routes data with
               | Just rs => if (0 <? length rs)%nat then "OK" else "ZERO_RESULTS"
               | _ => "ZERO_RESULTS"
               end) ]).

End Tools.

(** ** index.ts: the HTTP endpoint and the session table *)

Module Http.

(** What the program reads of a [StreamableHTTPServerTransport]. *)
Record Transport := { sessionId : option string }.

(** The process state: the transport objects constructed so far (a
    transport is named by its position), the module-level table
    [transports], and the transports handed to [server.connect]. *)
Record Server :=
  { objects : list Transport;
    transports : gmap string nat;
    connects : list nat }.

Definition initial : Server :=
  {| objects := []; transports := ∅; connects := [] |}.

(** The table is created by the literal [{}], so it inherits from
    [Object.prototype]; these are that prototype's property names. *)
Definition Object_prototype : list string :=
  [ "constructor"; "__defineGetter__"; "__defineSetter__"; "hasOwnProperty";
    "__lookupGetter__"; "__lookupSetter__"; "isPrototypeOf";
    "propertyIsEnumerable"; "toString"; "valueOf"; "__proto__";
    "toLocaleString" ].

(** The result of the property read [transports[k]]. *)
Inductive property :=
| Own (t : nat)
| Inherited (k : string)
| Missing.

Definition get (o : gmap string nat) (k : string) : property :=
  match o !! k with
  | Some t => Own t
  | None => if existsb (String.eqb k) Object_prototype then Inherited k else Missing
  end.

Definition truthy (s : string) : bool := negb (String.eqb s EmptyString).

Record Request := { headers : gmap string string; body : value }.

Inductive Payload := JsonBody (v : value) | TextBody (s : string).

(** How a route handler ends. *)
Inductive Outcome :=
| Sent (code : Z) (payload : Payload)
    (** [reply.code(c).send(p); return] *)
| HandedOff (t : nat)
    (** [reply.hijack(); await transport.handleRequest(...)] *)
| NotAFunction (k : string)
    (** [reply.hijack()], then the call of [transport.handleRequest]
        throws a [TypeError]: [transport] is a member of
        [Object.prototype] and has no such method. *)
.

Definition no_valid_session : value :=
  VObj [ ("jsonrpc", VStr "2.0");
         ("error",
           VObj [ ("code", VNum (of_Z (-32000)));
                  ("message", VStr "Bad Request: No valid session ID provided") ]);
         ("id", VNull) ].

(** [sessionId ? transports[sessionId] : undefined] *)
Definition lookup_session (request : Request) (s : Server) : property :=
  match headers request !! "mcp-session-id" with
  | Some sessionId => if truthy sessionId then get (transports s) sessionId else Missing
  | None => Missing
  end.

(** The two callbacks installed on a new transport [t].  The id handed
    to [onsessioninitialized] is the one [randomUUID()] drew; the
    assignment is an entry of the table for every key but [__proto__],
    which no UUID is. *)
Definition onsessioninitialized (t : nat) (sid : string) (s : Server) : Server :=
  {| objects := objects s;
     transports := <[sid := t]> (transports s);
     connects := connects s |}.

Definition onclose (t : nat) (s : Server) : Server :=
  match sessionId <$> objects s !! t with
  | Some (Some sid) =>
      if truthy sid
      then {| objects := objects s;
              transports := delete sid (transports s);
              connects := connects s |}
      else s
  | _ => s
  end.

Section Routes.

(** The SDK's recogniser of initialization messages. *)
Variable isInitializeRequest : value -> bool.

Definition post_mcp (request : Request) (s : Server) : Outcome * Server :=
  match lookup_session request s with
  | Missing =>
      if negb (isInitializeRequest (body request))
      then (Sent 400 (JsonBody no_valid_session), s)
      else
        let t := length (objects s) in
        (HandedOff t,
         {| objects := objects s ++ [ {| sessionId := None |} ];
            transports := transports s;
            connects := connects s ++ [t] |})
  | Own t => (HandedOff t, s)
  | Inherited k => (NotAFunction k, s)
  end.

End Routes.

Definition get_mcp (request : Request) (s : Server) : Outcome * Server :=
  match lookup_session request s with
  | Missing => (Sent 400 (TextBody "Invalid or missing session ID"), s)
  | Own t => (HandedOff t, s)
  | Inherited k => (NotAFunction k, s)
  end.

Definition delete_mcp (request : Request) (s : Server) : Outcome * Server :=
  match lookup_session request s with
  | Missing => (Sent 400 (TextBody "Invalid or missing session ID"), s)
  | Own t => (HandedOff t, s)
  | Inherited k => (NotAFunction k, s)
  end.

(** The transport's side of the contract, as the SDK documents it: while
    it handles an initialization message a fresh transport draws its id
    from [sessionIdGenerator] (here [randomUUID()], the argument [uuid]),
    stores it and calls [onsessioninitialized]; when it closes it calls
    [onclose]. *)
Definition transport_initialize (uuid : string) (t : nat) (s : Server) : Server :=
  onsessioninitialized t uuid
    {| objects := <[t := {| sessionId := Some uuid |}]> (objects s);
       transports := transports s;
       connects := connects s |}.

Definition transport_close (t : nat) (s : Server) : Server := onclose t s.

(** A recogniser to run the routes with: a JSON-RPC 2.0 request whose
    method is ["initialize"]. *)
Definition is_initialize (v : value) : bool :=
  match field "jsonrpc" v, field "method" v with
  | VStr v2, VStr m => String.eqb v2 "2.0" && String.eqb m "initialize"
  | _, _ => false
  end.

End Http.

(** ** config.ts *)

Module Config.

Record Config := { googleMapsApiKey : string; port : Z }.

Inductive Process :=
| Exited (error : string)
| Listening (port : Z) (host : string).

Definition is_space (c : ascii) : bool :=
  let n := nat_of_ascii c in ((9 <=? n)%nat && (n <=? 13)%nat) || (n =? 32)%nat.

(** The white space of [String.prototype.trim] outside ASCII, in UTF-8:
    U+00A0 on two bytes; U+1680, U+2000 to U+200A, U+2028, U+2029,
    U+202F, U+205F, U+3000 and U+FEFF on three. *)
Definition two_byte_space (a b : ascii) : bool :=
  (nat_of_ascii a =? 194)%nat && (nat_of_ascii b =? 160)%nat.

Definition three_byte_space (a b c : ascii) : bool :=
  let x := nat_of_ascii a in
  let y := nat_of_ascii b in
  let z := nat_of_ascii c in
  ((x =? 225)%nat && (y =? 154)%nat && (z =? 128)%nat)
  || ((x =? 226)%nat && (y =? 128)%nat
      && (((128 <=? z)%nat && (z <=? 138)%nat)
          || (z =? 168)%nat || (z =? 169)%nat || (z =? 175)%nat))
  || ((x =? 226)%nat && (y =? 129)%nat && (z =? 159)%nat)
  || ((x =? 227)%nat && (y =? 128)%nat && (z =? 128)%nat)
  || ((x =? 239)%nat && (y =? 187)%nat && (z =? 191)%nat).

(** [s.trim().length === 0] *)
Fixpoint blank (s : string) : bool :=
  match s with
  | EmptyString => true
  | String a r =>
      if is_space a then blank r
      else
        match r with
        | String b r1 =>
            if two_byte_space a b then blank r1
            else
              match r1 with
              | String c r2 => three_byte_space a b c && blank r2
              | EmptyString => false
              end
        | EmptyString => false
        end
  end.

(** The text of an [EnvVarError]: [env-var: "NAME" message]. *)
Definition env_var_error (name message : string) : string :=
  let quote := String (ascii_of_nat 34) EmptyString in
  "env-var: " +:+ quote +:+ name +:+ quote +:+ " " +:+ message.

(** [env.get(name).required().asString()]: the variable must be set and
    not blank. *)
Definition required_asString (name : string) (v : option string) : string + string :=
  match v with
  | None => inl (env_var_error name "is a required variable, but it was not set")
  | Some s =>
      if blank s
      then inl (env_var_error name "is a required variable, but its value was empty")
      else inr s
  end.

(** *** The accessor [asIntPositive] of the env-var package

    The package is not part of this repository.  Its accessor [asInt]
    reads the value with [parseInt(value, 10)] and refuses it unless the
    result, printed with [toString(10)], is the value again;
    [asIntPositive] then refuses a result below zero.  The strings that
    pass the comparison are the canonical spellings of integers: decimal
    digits without a leading zero, after an optional minus sign. *)

Definition canonical_digits (s : string) : bool :=
  match s with
  | EmptyString => false
  | String c r =>
      all_digits s && (negb (Ascii.eqb c "0") || String.eqb r EmptyString)
  end.

(** The value of the binary64 number nearest to the integer [N >= 0];
    nothing when that is infinite. *)
Definition double_of_integer (N : Z) : option Z :=
  match of_Z N with
  | S754_zero _ => Some 0
  | S754_finite _ m e =>
      Some (if 0 <=? e then Zpos m * 2 ^ e else Zpos m / 2 ^ (- e))
  | _ => None
  end.

Definition rounds_to (c v : Z) : bool :=
  match double_of_integer c with
  | Some v' => v' =? v
  | None => false
  end.

(** From 10^21 on a number is printed with an exponent. *)
Definition number_of_digits (v : Z) : option nat :=
  find (fun n => v <? 10 ^ Z.of_nat n) (seq 1 21).

(** The integer that [toString(10)] prints for the binary64 value [v]:
    the one with the fewest significant digits among those that round to
    [v], the closest to [v] if there are two. *)
Fixpoint shortest (zeros : nat) (v : Z) : Z :=
  match zeros with
  | O => v
  | S j =>
      let p := 10 ^ Z.of_nat j in
      let lo := v / p * p in
      let hi := lo + p in
      match rounds_to lo v, rounds_to hi v with
      | true, true =>
          if v - lo <? hi - v then lo
          else if hi - v <? v - lo then hi
          else if Z.even (lo / p) then lo else hi
      | true, false => lo
      | false, true => hi
      | false, false => shortest j v
      end
  end.

Definition toString_integer (v : Z) : option Z :=
  match number_of_digits v with
  | Some n => Some (shortest n v)
  | None => None
  end.

Definition safe_integer : Z := 2 ^ 53.

Definition invalid_integer : string := "should be a valid integer".

(** An integer up to 2^53 is a binary64 value and is printed with its
    own digits, so the comparison succeeds there; beyond, the nearest
    binary64 value and its printed form are computed. *)
Definition asInt (value : string) : string + Z :=
  let '(negative, digits) :=
    match value with
    | String c r => if Ascii.eqb c "-" then (true, r) else (false, value)
    | EmptyString => (false, value)
    end in
  if canonical_digits digits && negb (negative && String.eqb digits "0")
  then
    let N := digits_value 0 digits in
    if N <=? safe_integer
    then inr (if negative then - N else N)
    else
      match double_of_integer N with
      | Some v =>
          match toString_integer v with
          | Some printed =>
              if printed =? N
              then inr (if negative then - v else v)
              else inl invalid_integer
          | None => inl invalid_integer
          end
      | None => inl invalid_integer
      end
  else inl invalid_integer.

Definition asIntPositive (value : string) : string + Z :=
  match asInt value with
  | inl e => inl e
  | inr n => if n <? 0 then inl "should be a positive integer" else inr n
  end.

(** *** config.ts and the start of the server *)

Section EnvVar.

(** The accessor that reads the port. *)
Variable portAccessor : string -> string + Z.

Definition config (env : gmap string string) : string + Config :=
  match required_asString "GOOGLE_MAPS_API_KEY" (env !! "GOOGLE_MAPS_API_KEY") with
  | inl e => inl e
  | inr key =>
      match portAccessor (default "3000" (env !! "PORT")) with
      | inl e => inl (env_var_error "PORT" e)
      | inr p => inr {| googleMapsApiKey := key; port := p |}
      end
  end.

(** Whether the address can be bound is the environment's: [bind]
    answers with an error or with nothing. *)
Variable bind : Z -> string -> option string.

(** [app.listen({ port, host })]: a port outside 0..65535 is refused
    before anything is bound. *)
Definition listen (port : Z) (host : string) : option string :=
  if (0 <=? port) && (port <? 65536)
  then bind port host
  else Some "ERR_SOCKET_BAD_PORT".

(** Module evaluation, then [startHttpServer()], whose failure ends the
    process. *)
Definition main (env : gmap string string) : Process :=
  match config env with
  | inl e => Exited e
  | inr c =>
      match listen (port c) "0.0.0.0" with
      | Some e => Exited e
      | None => Listening (port c) "0.0.0.0"
      end
  end.

End EnvVar.

(** An environment in which every address can be bound. *)
Definition free_address (port : Z) (host : string) : option string := None.

End Config.

(** ** Predicates and sample data of the statements *)

Module Statements.
Import GoogleMaps Tools Http.

Definition starts_without_digit (r : string) : Prop :=
  match r with
  | EmptyString => True
  | String c _ => is_digit c = false
  end.

(** The binary64 value 3.5. *)
Definition three_and_a_half : number := div (of_Z 7) (of_Z 2).

Definition one_billion : number := of_Z 1000000000.

(** The number a [seconds] field stands for. *)
Definition seconds_number (x : maybe SecondsRaw) : number :=
  match x with
  | Just (SecNum n) => n
  | Just (SecStr s) => Number s
  | _ => of_Z 0
  end.

(** The value a place is mapped to: field by field what the provider
    supplied. *)
Definition mapped_place (p : Place) (v : value) : Prop :=
  field "id" v = str (id p)
  /\ field "display_name" v = str (chain (displayName p) text)
  /\ field "formatted_address" v = str (formattedAddress p)
  /\ field "location" v
     = match location p with
       | Just l => VObj [ ("lat", num (latitude l)); ("lng", num (longitude l)) ]
       | _ => VUndefined
       end
  /\ field "rating" v = num (rating p)
  /\ field "user_rating_count" v = num (userRatingCount p)
  /\ field "primary_type" v = str (primaryType p).

(** The [results] of an output are the provider's places, mapped one by
    one and in order, and its [status] tells whether they are empty. *)
Definition status_tracks_results (out : value) (places : list Place) : Prop :=
  exists results : list value,
    field "results" out = VArr results
    /\ Forall2 mapped_place places results
    /\ (field "status" out = VStr "ZERO_RESULTS" <-> results = [])
    /\ (field "status" out = VStr "OK" <-> results <> [])
    /\ (field "status" out = VStr "OK" <-> places <> []).

(** A leg for which the provider supplies no locations. *)
Definition leg_without_locations : RouteLeg :=
  {| startLocation := Undefined;
     endLocation := Undefined;
     leg_distanceMeters := Just (of_Z 1200);
     leg_duration := Just (DurStr "95s") |}.

Definition response_without_locations : ComputeRoutesResponse :=
  {| routes :=
       Just [ {| distanceMeters := Just (of_Z 1200);
                 duration := Just (DurStr "95s");
                 legs := Just [ leg_without_locations ] |} ] |}.

Definition sample_args : DirectionsArgs :=
  {| origin := "A"; destination := "B"; mode := Some driving |}.

Definition tools_list : value :=
  VObj [ ("jsonrpc", VStr "2.0"); ("id", VNum (of_Z 1)); ("method", VStr "tools/list") ].

Definition initialize : value :=
  VObj [ ("jsonrpc", VStr "2.0"); ("id", VNum (of_Z 0)); ("method", VStr "initialize");
         ("params", VObj [ ("protocolVersion", VStr "2025-03-26");
                           ("capabilities", VObj []);
                           ("clientInfo", VObj [ ("name", VStr "client");
                                                 ("version", VStr "1.0.0") ]) ]) ].

Definition with_session_id (sid : string) (b : value) : Request :=
  {| headers := {[ "mcp-session-id" := sid ]}; body := b |}.

Definition without_session_id (b : value) : Request :=
  {| headers := ∅; body := b |}.

End Statements.

(** ** The remaining tools: geocode and places_autocomplete *)

Module Geocoding.
Import GoogleMaps Zod.

(** A call of the HTTP client: query parameters and a timeout in
    milliseconds; its response carries the payload under [data]. *)
Record HttpCall (P : Type) := { params : P; timeout : Z }.
Arguments params {P} _.
Arguments timeout {P} _.

Record HttpResponse (D : Type) := { data : D }.
Arguments data {D} _.

Record GeocodeParams := { address : string; key : string }.
Record TextSearchParams := { query : string; query_key : string }.

Record LatLngLiteral := { lat : number; lng : number }.
Record Geometry := { location : LatLngLiteral }.
Record GeocodeResult :=
  { formatted_address : string; place_id : string; geometry : Geometry }.
Record GeocodeResponseData := { results : list GeocodeResult; status : string }.

Section ApiKey.

(** [const API_KEY = config.googleMapsApiKey] *)
Variable API_KEY : string.

Definition geocode (address : string)
  : Await (HttpCall GeocodeParams) (HttpResponse GeocodeResponseData)
          GeocodeResponseData :=
  {| issued := {| params := {| address := address; key := API_KEY |};
                  timeout := 10000 |};
     resume := fun res => data res |}.

Definition searchPlaces {D : Type} (query : string)
  : Await (HttpCall TextSearchParams) (HttpResponse D) D :=
  {| issued := {| params := {| query := query; query_key := API_KEY |};
                  timeout := 10000 |};
     resume := fun res => data res |}.

Definition geocode_outputSchema : schema :=
  object
    [ ("results",
        array
          (object
             [ ("formatted_address", string_);
               ("place_id", string_);
               ("location", object [("lat", number_); ("lng", number_)]) ]));
      ("status", string_) ].

Definition geocode_handler (address : string)
  : Await (HttpCall GeocodeParams) (HttpResponse GeocodeResponseData) value :=
  and_then (geocode address) (fun data =>
    VObj
      [ ("results",
          VArr
            (map (fun r : GeocodeResult =>
                    VObj
                      [ ("formatted_address", VStr (formatted_address r));
                        ("place_id", VStr (place_id r));
                        ("location",
                          VObj [ ("lat", VNum (lat (location (geometry r))));
                                 ("lng", VNum (lng (location (geometry r)))) ]) ])
                 (results data)));
        ("status", VStr (status data)) ]).

End ApiKey.

End Geocoding.

Module Autocomplete.
Import Zod.

Record FormattableText := { text : maybe string }.

Record PlacePrediction :=
  { placeId : maybe string;
    place_text : maybe FormattableText;
    distanceMeters : maybe number }.

Record QueryPrediction := { query_text : maybe FormattableText }.

Record Suggestion :=
  { placePrediction : maybe PlacePrediction;
    queryPrediction : maybe QueryPrediction }.

Record AutocompletePlacesResponse := { suggestions : maybe (list Suggestion) }.

Record AutocompletePlacesRequest :=
  { input : string; locationBias : option GoogleMaps.Circle }.

Record Center := { lat : number; lng : number }.

Record Options :=
  { biasCenter : option Center; biasRadiusMeters : option number }.

(** Truthiness of a number: [0], [-0] and [NaN] are falsy. *)
Definition truthy_number (x : number) : bool :=
  match x with
  | S754_zero _ | S754_nan => false
  | _ => true
  end.

Definition autocomplete_field_mask : string :=
  GoogleMaps.join
    [ "suggestions.placePrediction.placeId";
      "suggestions.placePrediction.text";
      "suggestions.placePrediction.distanceMeters";
      "suggestions.queryPrediction.text" ].

Definition placesAutocomplete (input : string) (opts : option Options)
  : GoogleMaps.Await (GoogleMaps.Call AutocompletePlacesRequest)
                     AutocompletePlacesResponse AutocompletePlacesResponse :=
  let req :=
    {| input := input;
       locationBias :=
         match opts ≫= biasCenter, opts ≫= biasRadiusMeters with
         | Some c, Some r =>
             if truthy_number r
             then Some {| GoogleMaps.center :=
                            {| GoogleMaps.latitude := Just (lat c);
                               GoogleMaps.longitude := Just (lng c) |};
                          GoogleMaps.radius := r |}
             else None
         | _, _ => None
         end |} in
  {| GoogleMaps.issued :=
       {| GoogleMaps.request := req;
          GoogleMaps.headers := [("X-Goog-FieldMask", autocomplete_field_mask)] |};
     GoogleMaps.resume := fun resp => resp |}.

Definition places_autocomplete_outputSchema : schema :=
  object
    [ ("suggestions",
        array
          (object
             [ ("kind", enum_ ["place"; "query"]);
               ("text", string_);
               ("place_id", optional string_);
               ("distance_meters", optional number_) ])) ].

Record AutocompleteArgs :=
  { arg_input : string;
    bias_center_lat : option number;
    bias_center_lng : option number;
    bias_radius_meters : option number }.

Definition places_autocomplete_handler (args : AutocompleteArgs)
  : GoogleMaps.Await (GoogleMaps.Call AutocompletePlacesRequest)
                     AutocompletePlacesResponse value :=
  GoogleMaps.and_then
    (placesAutocomplete (arg_input args)
       (Some {| biasCenter :=
                  match bias_center_lat args, bias_center_lng args with
                  | Some la, Some ln => Some {| lat := la; lng := ln |}
                  | _, _ => None
                  end;
                biasRadiusMeters := bias_radius_meters args |}))
    (fun resp =>
       let suggestions :=
         map (fun s : Suggestion =>
                match placePrediction s with
                | Just pp =>
                    VObj
                      [ ("kind", VStr "place");
                        ("text", VStr (nullish (chain (place_text pp) text) EmptyString));
                        ("place_id", str (placeId pp));
                        ("distance_meters", num (distanceMeters pp)) ]
                | _ =>
                    VObj
                      [ ("kind", VStr "query");
                        ("text",
                          VStr (nullish (chain (chain (queryPrediction s) query_text) text)
                                        EmptyString)) ]
                end)
             (nullish (suggestions resp) []) in
       VObj [ ("suggestions", VArr suggestions) ]).

End Autocomplete.

(** ** googleMaps.ts, the wrappers that take the API key as an argument *)

Module Keyed.
Import GoogleMaps.

Definition missing_key : string :=
  "Missing GOOGLE_MAPS_API_KEY environment variable".

(** [if (!apiKey) throw ...; return apiKey] *)
Definition assertApiKey (apiKey : option string) : string + string :=
  match apiKey with
  | None => inl missing_key
  | Some k => if String.eqb k EmptyString then inl missing_key else inr k
  end.

Definition geocode (apiKey : option string) (address : string)
  : string + Await (Geocoding.HttpCall Geocoding.GeocodeParams)
                   (Geocoding.HttpResponse Geocoding.GeocodeResponseData)
                   Geocoding.GeocodeResponseData :=
  match assertApiKey apiKey with
  | inl e => inl e
  | inr key =>
      inr {| issued :=
               {| Geocoding.params :=
                    {| Geocoding.address := address; Geocoding.key := key |};
                  Geocoding.timeout := 10000 |};
             resume := fun res => Geocoding.data res |}
  end.

Definition searchPlaces {D : Type} (apiKey : option string) (query : string)
  : string + Await (Geocoding.HttpCall Geocoding.TextSearchParams)
                   (Geocoding.HttpResponse D) D :=
  match assertApiKey apiKey with
  | inl e => inl e
  | inr key =>
      inr {| issued :=
               {| Geocoding.params :=
                    {| Geocoding.query := query; Geocoding.query_key := key |};
                  Geocoding.timeout := 10000 |};
             resume := fun res => Geocoding.data res |}
  end.

Definition directions (apiKey : option string) (origin destination : string)
           (mode : option DirectionsMode)
  : string + Await (Call ComputeRoutesRequest) ComputeRoutesResponse
                   ComputeRoutesResponse :=
  let mode := default driving mode in
  match assertApiKey apiKey with
  | inl e => inl e
  | inr key =>
      let request :=
        {| origin_address := origin;
           destination_address := destination;
           travelMode := TRAVEL_MODE_MAP mode |} in
      let fieldMask :=
        join [ "routes.distanceMeters"; "routes.duration";
               "routes.legs.startLocation"; "routes.legs.endLocation";
               "routes.legs.distanceMeters"; "routes.legs.duration" ] in
      inr {| issued := {| request := request;
                          headers := [ ("X-Goog-FieldMask", fieldMask);
                                       ("X-Goog-Api-Key", key) ] |};
             resume := fun response => response |}
  end.

Definition placesSearchText (apiKey : option string) (textQuery : string)
  : string + Await (Call SearchTextRequest) SearchTextResponse SearchTextResponse :=
  match assertApiKey apiKey with
  | inl e => inl e
  | inr key =>
      let req := {| textQuery := textQuery |} in
      inr {| issued := {| request := req;
                          headers := [ ("X-Goog-FieldMask", places_field_mask);
                                       ("X-Goog-Api-Key", key) ] |};
             resume := fun resp => resp |}
  end.

Definition placesSearchNearby (apiKey : option string)
           (center_lat center_lng : number) (radiusMeters : number)
           (opt_includedPrimaryTypes : option (list string))
           (opt_maxResultCount : option number)
  : string + Await (Call SearchNearbyRequest) SearchNearbyResponse
                   SearchNearbyResponse :=
  match assertApiKey apiKey with
  | inl e => inl e
  | inr key =>
      let req :=
        {| maxResultCount := opt_maxResultCount;
           includedPrimaryTypes := opt_includedPrimaryTypes;
           locationRestriction :=
             {| center := {| latitude := Just center_lat;
                             longitude := Just center_lng |};
                radius := radiusMeters |} |} in
      inr {| issued := {| request := req;
                          headers := [ ("X-Goog-FieldMask", places_field_mask);
                                       ("X-Goog-Api-Key", key) ] |};
             resume := fun resp => resp |}
  end.

Definition placesAutocomplete (apiKey : option string) (input : string)
           (opts : option Autocomplete.Options)
  : string + Await (Call Autocomplete.AutocompletePlacesRequest)
                   Autocomplete.AutocompletePlacesResponse
                   Autocomplete.AutocompletePlacesResponse :=
  match assertApiKey apiKey with
  | inl e => inl e
  | inr key =>
      let req :=
        {| Autocomplete.input := input;
           Autocomplete.locationBias :=
             match opts ≫= Autocomplete.biasCenter,
                   opts ≫= Autocomplete.biasRadiusMeters with
             | Some c, Some r =>
                 if Autocomplete.truthy_number r
                 then Some {| center :=
                                {| latitude := Just (Autocomplete.lat c);
                                   longitude := Just (Autocomplete.lng c) |};
                              radius := r |}
                 else None
             | _, _ => None
             end |} in
      inr {| issued :=
               {| request := req;
                  headers := [ ("X-Goog-FieldMask", Autocomplete.autocomplete_field_mask);
                               ("X-Goog-Api-Key", key) ] |};
             resume := fun resp => resp |}
  end.

Definition getPlace (apiKey : option string) (placeId : string)
  : string + Await (Call GetPlaceRequest) Place Place :=
  match assertApiKey apiKey with
  | inl e => inl e
  | inr key =>
      let name := resource_name placeId in
      let req := {| name := name |} in
      inr {| issued :=
               {| request := req;
                  headers :=
                    [ ("X-Goog-FieldMask",
                       join [ "id"; "displayName"; "formattedAddress"; "location";
                              "rating"; "userRatingCount"; "primaryType"; "types";
                              "internationalPhoneNumber"; "websiteUri" ]);
                      ("X-Goog-Api-Key", key) ] |};
             resume := fun place => place |}
  end.

(** The same call with the key header added. *)
Definition with_api_key {Req} (k : string) (c : Call Req) : Call Req :=
  {| request := request c;
     headers := headers c ++ [ ("X-Goog-Api-Key", k) ] |}.

End Keyed.

(** ** Conditions on provider data and on the session state *)

Module Conformance.
Import GoogleMaps Tools.

(** A required number: present and not [NaN]. *)
Definition is_number (x : maybe number) : bool :=
  match x with Just n => negb (is_nan n) | _ => false end.

(** An optional number: [undefined], or a number that is not [NaN];
    [null] is neither. *)
Definition number_or_absent (x : maybe number) : bool :=
  match x with
  | Undefined => true
  | Null => false
  | Just n => negb (is_nan n)
  end.

Definition string_or_absent (x : maybe string) : bool :=
  match x with Null => false | _ => true end.

(** A duration that converts to nothing or to a number that is not [NaN]. *)
Definition seconds_or_absent (d : maybe DurationValue) : bool :=
  match durationToSeconds (to_option d) with
  | None => true
  | Some x => negb (is_nan x)
  end.

Definition has_coordinates (l : maybe Location) : bool :=
  is_number (chain (chain l latLng) latitude)
  && is_number (chain (chain l latLng) longitude).

Definition leg_ok (leg : RouteLeg) : bool :=
  has_coordinates (startLocation leg)
  && has_coordinates (endLocation leg)
  && number_or_absent (leg_distanceMeters leg)
  && seconds_or_absent (leg_duration leg).

Definition route_ok (route : Route) : bool :=
  number_or_absent (distanceMeters route)
  && seconds_or_absent (duration route)
  && forallb leg_ok (nullish (legs route) []).

Definition place_ok (p : Place) : bool :=
  string_or_absent (id p)
  && string_or_absent (chain (displayName p) text)
  && string_or_absent (formattedAddress p)
  && match location p with
     | Just l => is_number (latitude l) && is_number (longitude l)
     | _ => true
     end
  && number_or_absent (rating p)
  && number_or_absent (userRatingCount p)
  && string_or_absent (primaryType p).

Definition place_details_ok (p : Place) : bool :=
  place_ok p
  && string_or_absent (internationalPhoneNumber p)
  && string_or_absent (websiteUri p).

Definition geocode_result_ok (r : Geocoding.GeocodeResult) : bool :=
  negb (is_nan (Geocoding.lat (Geocoding.location (Geocoding.geometry r))))
  && negb (is_nan (Geocoding.lng (Geocoding.location (Geocoding.geometry r)))).

Definition suggestion_ok (s : Autocomplete.Suggestion) : bool :=
  match Autocomplete.placePrediction s with
  | Just pp =>
      string_or_absent (Autocomplete.placeId pp)
      && number_or_absent (Autocomplete.distanceMeters pp)
  | _ => true
  end.

(** An unsigned decimal numeral: digits, or digits, a point and digits. *)
Definition numeral (m : string) : Prop :=
  exists ip : string,
    all_digits ip = true /\ ip <> EmptyString
    /\ (m = ip
        \/ exists fp : string,
             all_digits fp = true /\ fp <> EmptyString /\ m = ip +:+ "." +:+ fp).

(** The [status] of a directions output tells whether [routes] is empty. *)
Definition status_tracks_routes (out : value) (n : nat) : Prop :=
  exists rs : list value,
    field "routes" out = VArr rs
    /\ length rs = n
    /\ (field "status" out = VStr "OK" <-> rs <> [])
    /\ (field "status" out = VStr "ZERO_RESULTS" <-> rs = []).

End Conformance.

Module Sessions.
Import Http.

(** Every entry of the table names a constructed transport that carries
    the entry's key as its session id, and no key is empty. *)
Definition consistent (s : Server) : Prop :=
  forall (sid : string) (t : nat),
    transports s !! sid = Some t ->
    sid <> EmptyString /\ sessionId <$> objects s !! t = Some (Some sid).

Definition session_header (sid : string) (request : Request) : Prop :=
  headers request !! "mcp-session-id" = Some sid.

(** The states the server goes through: it starts with an empty table
    and no transport; requests arrive on the three routes; a transport
    that has no id yet draws a non-empty one while it handles an
    initialization message; a transport closes. *)
Inductive reachable (isInitializeRequest : value -> bool) : Server -> Prop :=
| reach_initial : reachable isInitializeRequest initial
| reach_post (request : Request) (s : Server) :
    reachable isInitializeRequest s ->
    reachable isInitializeRequest (snd (post_mcp isInitializeRequest request s))
| reach_get (request : Request) (s : Server) :
    reachable isInitializeRequest s ->
    reachable isInitializeRequest (snd (get_mcp request s))
| reach_delete (request : Request) (s : Server) :
    reachable isInitializeRequest s ->
    reachable isInitializeRequest (snd (delete_mcp request s))
| reach_initialized (uuid : string) (t : nat) (s : Server) :
    reachable isInitializeRequest s ->
    uuid <> EmptyString ->
    sessionId <$> objects s !! t = Some None ->
    reachable isInitializeRequest (transport_initialize uuid t s)
| reach_closed (t : nat) (s : Server) :
    reachable isInitializeRequest s ->
    reachable isInitializeRequest (transport_close t s).

(** No key of the table leads to transport [t]. *)
Definition no_entry (s : Server) (t : nat) : Prop :=
  forall k : string, transports s !! k <> Some t.

(** [later t s s']: the server gets from [s] to [s'] by requests on the
    three routes, initializations of transports other than [t], and
    closes. *)
Inductive later (isInitializeRequest : value -> bool) (t : nat)
  : Server -> Server -> Prop :=
| later_now (s : Server) : later isInitializeRequest t s s
| later_post (request : Request) (s s' : Server) :
    later isInitializeRequest t s s' ->
    later isInitializeRequest t s (snd (post_mcp isInitializeRequest request s'))
| later_get (request : Request) (s s' : Server) :
    later isInitializeRequest t s s' ->
    later isInitializeRequest t s (snd (get_mcp request s'))
| later_delete (request : Request) (s s' : Server) :
    later isInitializeRequest t s s' ->
    later isInitializeRequest t s (snd (delete_mcp request s'))
| later_initialized (uuid : string) (t' : nat) (s s' : Server) :
    later isInitializeRequest t s s' ->
    t' <> t ->
    later isInitializeRequest t s (transport_initialize uuid t' s')
| later_closed (t' : nat) (s s' : Server) :
    later isInitializeRequest t s s' ->
    later isInitializeRequest t s (transport_close t' s').

End Sessions.

(** * Properties *)

(** ** Duration normalization *)

Module DurationFacts.
Import GoogleMaps Tools Statements.

Lemma span_digits_app (ds r : string) :
  all_digits ds = true -> starts_without_digit r ->
  span_digits (ds +:+ r) = (ds, r).
Proof.
  intros Hds Hr. induction ds as [|c ds IH]; simpl in *.
  - destruct r as [|c r]; simpl in *; [reflexivity|]. now rewrite Hr.
  - apply andb_prop in Hds as [Hc Hds]. rewrite Hc, (IH Hds). reflexivity.
Qed.

Lemma span_digits_all (ds : string) :
  all_digits ds = true -> span_digits ds = (ds, EmptyString).
Proof.
  intros Hds. induction ds as [|c ds IH]; simpl in *; [reflexivity|].
  apply andb_prop in Hds as [Hc Hds]. rewrite Hc, (IH Hds). reflexivity.
Qed.

(** The pattern accepts an integer numeral followed by [s]. *)
Lemma duration_re_exec_integer (ip : string) :
  all_digits ip = true -> ip <> EmptyString ->
  duration_re_exec (ip +:+ "s") = Some ip.
Proof.
  intros Hd Hne. unfold duration_re_exec.
  rewrite (span_digits_app ip "s" Hd) by reflexivity.
  destruct ip; [congruence | reflexivity].
Qed.

(** The pattern accepts a numeral with a fraction followed by [s]. *)
Lemma duration_re_exec_fraction (ip fp : string) :
  all_digits ip = true -> ip <> EmptyString ->
  all_digits fp = true -> fp <> EmptyString ->
  duration_re_exec (ip +:+ "." +:+ fp +:+ "s") = Some (ip +:+ "." +:+ fp).
Proof.
  intros Hi Hine Hf Hfne. unfold duration_re_exec.
  rewrite (span_digits_app ip ("." +:+ fp +:+ "s") Hi) by reflexivity.
  destruct ip as [|c ip]; [congruence|].
  change ("." +:+ fp +:+ "s") with (String "."%char (fp +:+ "s")).
  cbv iota. rewrite (span_digits_app fp "s" Hf) by reflexivity.
  destruct fp; [congruence | reflexivity].
Qed.

Lemma digit_not_sign (c : ascii) :
  is_digit c = true -> c <> "-"%char /\ c <> "+"%char.
Proof. intros H; split; intros ->; discriminate H. Qed.

(** [Number] reads an integer numeral as its value, rounded to binary64. *)
Lemma Number_integer (ip : string) :
  all_digits ip = true -> ip <> EmptyString ->
  Number ip = round_decimal (digits_value 0 ip) 0.
Proof.
  intros Hd Hne. destruct ip as [|c ip]; [congruence|].
  assert (Hc : is_digit c = true) by (simpl in Hd; now apply andb_prop in Hd).
  destruct (digit_not_sign c Hc) as [Hm Hp].
  assert (HN : Number (String c ip)
               = match unsigned_decimal (String c ip) with Some x => x | None => NaN end).
  { unfold Number.
    destruct c as [[] [] [] [] [] [] [] []]; try reflexivity; congruence. }
  rewrite HN. unfold unsigned_decimal.
  rewrite (span_digits_all _ Hd). reflexivity.
Qed.

(** [Number] reads a numeral with a fraction as its value, rounded. *)
Lemma Number_fraction (ip fp : string) :
  all_digits ip = true -> ip <> EmptyString ->
  all_digits fp = true -> fp <> EmptyString ->
  Number (ip +:+ "." +:+ fp)
  = round_decimal (digits_value 0 (ip +:+ fp)) (String.length fp).
Proof.
  intros Hi Hine Hf Hfne. destruct ip as [|c ip]; [congruence|].
  assert (Hc : is_digit c = true) by (simpl in Hi; now apply andb_prop in Hi).
  destruct (digit_not_sign c Hc) as [Hm Hp].
  assert (HN : forall r, Number (String c r)
               = match unsigned_decimal (String c r) with Some x => x | None => NaN end).
  { intros r. unfold Number.
    destruct c as [[] [] [] [] [] [] [] []]; try reflexivity; congruence. }
  change (String c ip +:+ "." +:+ fp) with (String c (ip +:+ "." +:+ fp)).
  rewrite HN. unfold unsigned_decimal.
  change (String c (ip +:+ "." +:+ fp)) with (String c ip +:+ "." +:+ fp).
  rewrite (span_digits_app (String c ip) ("." +:+ fp) Hi) by reflexivity.
  change ("." +:+ fp) with (String "."%char fp).
  cbv iota. rewrite Hf.
  destruct fp; [congruence | reflexivity].
Qed.

(** C2. [durationToSeconds] maps ["3.5s"] and [{seconds: 3, nanos:
    500000000}] to 3.5, and an absent duration ([undefined], or [null]
    as the handlers pass it on) to an absent result rather than to 0.
    A string made of an unsigned decimal numeral (digits, optionally a
    point and more digits) followed by [s] converts to the binary64
    value of the numeral, and a [{seconds, nanos}] message converts to
    [seconds + nanos / 1e9], a missing part counting as 0. *)
Theorem durationToSeconds_converts :
  durationToSeconds (Some (DurStr "3.5s")) = Some three_and_a_half
  /\ durationToSeconds
       (Some (DurMsg {| seconds := Just (SecNum (of_Z 3));
                        nanos := Just (of_Z 500000000) |}))
     = Some three_and_a_half
  /\ durationToSeconds None = None
  /\ durationToSeconds None <> Some (of_Z 0)
  /\ durationToSeconds (to_option Undefined) = None
  /\ durationToSeconds (to_option Null) = None
  /\ (forall ip : string,
        all_digits ip = true -> ip <> EmptyString ->
        durationToSeconds (Some (DurStr (ip +:+ "s")))
        = Some (round_decimal (digits_value 0 ip) 0))
  /\ (forall ip fp : string,
        all_digits ip = true -> ip <> EmptyString ->
        all_digits fp = true -> fp <> EmptyString ->
        durationToSeconds (Some (DurStr (ip +:+ "." +:+ fp +:+ "s")))
        = Some (round_decimal (digits_value 0 (ip +:+ fp)) (String.length fp)))
  /\ (forall d : Duration,
        durationToSeconds (Some (DurMsg d))
        = Some (add (seconds_number (seconds d))
                    (div (nullish (nanos d) (of_Z 0)) one_billion))).
Proof.
  split; [vm_compute; reflexivity|].
  split; [vm_compute; reflexivity|].
  split; [reflexivity|].
  split; [discriminate|].
  split; [reflexivity|].
  split; [reflexivity|].
  split; [|split].
  - intros ip Hd Hne. unfold durationToSeconds.
    rewrite (duration_re_exec_integer ip Hd Hne), (Number_integer ip Hd Hne).
    destruct ip; [congruence | reflexivity].
  - intros ip fp Hi Hine Hf Hfne. unfold durationToSeconds.
    rewrite (duration_re_exec_fraction ip fp Hi Hine Hf Hfne).
    rewrite (Number_fraction ip fp Hi Hine Hf Hfne).
    destruct ip; [congruence | reflexivity].
  - intros [sec nan]. unfold durationToSeconds, seconds_number, one_billion. simpl.
    destruct sec as [| |[n|str]]; reflexivity.
Qed.

(** Strings outside the pattern, a signed numeral among them, convert
    to an absent result. *)
Example durationToSeconds_outside_pattern :
  durationToSeconds (Some (DurStr "-1.5s")) = None
  /\ durationToSeconds (Some (DurStr "1e3s")) = None
  /\ durationToSeconds (Some (DurStr "3.5")) = None.
Proof. repeat split. Qed.

Lemma durationToSeconds_converts_witness :
  durationToSeconds (Some (DurStr "90s")) = Some (of_Z 90)
  /\ durationToSeconds (Some (DurStr "12.25s")) = Some (div (of_Z 49) (of_Z 4)).
Proof.
  destruct durationToSeconds_converts as (_ & _ & _ & _ & _ & _ & Hint & Hfrac & _).
  split.
  - etransitivity;
      [ exact (Hint "90" eq_refl ltac:(discriminate)) | vm_compute; reflexivity ].
  - etransitivity;
      [ exact (Hfrac "12" "25" eq_refl ltac:(discriminate) eq_refl ltac:(discriminate))
      | vm_compute; reflexivity ].
Defined.

End DurationFacts.

(** ** Tool outputs *)

Module ToolFacts.
Import GoogleMaps Zod Tools Statements.

(** A handler run against a provider that answers yields what the
    handler makes of the answer. *)
Lemma run_answers {Req Resp A} (provider : Req -> string + Resp)
      (a : Await Req Resp A) (resp : Resp) :
  provider (issued a) = inr resp -> run provider a = inr (resume a resp).
Proof. unfold run. now intros ->. Qed.

(** A rejection of the provider is the rejection of the handler. *)
Lemma run_rejects {Req Resp A} (provider : Req -> string + Resp)
      (a : Await Req Resp A) (err : string) :
  provider (issued a) = inl err -> run provider a = inl err.
Proof. unfold run. now intros ->. Qed.

Lemma if_length_status {A} (xs : list A) :
  (if_length (length xs) "OK" "ZERO_RESULTS" = "ZERO_RESULTS" <-> xs = [])
  /\ (if_length (length xs) "OK" "ZERO_RESULTS" = "OK" <-> xs <> []).
Proof. destruct xs; simpl; split; split; intros; congruence. Qed.

Lemma map_nil_iff {A B} (f : A -> B) (xs : list A) : map f xs = [] <-> xs = [].
Proof. destruct xs; simpl; split; intros; congruence. Qed.

Lemma Forall2_map_self {A B} (P : A -> B -> Prop) (f : A -> B) (xs : list A) :
  (forall x, P x (f x)) -> Forall2 P xs (map f xs).
Proof. intros H. induction xs; cbn [map]; constructor; auto. Qed.

Lemma status_of_mapped (f : Place -> value) (places : list Place) :
  (forall p, mapped_place p (f p)) ->
  status_tracks_results
    (VObj [ ("results", VArr (map f places));
            ("status", VStr (if_length (length (map f places)) "OK" "ZERO_RESULTS")) ])
    places.
Proof.
  intros Hf. exists (map f places).
  split; [reflexivity|]. split; [now apply Forall2_map_self|].
  cbn [field get_field String.eqb Ascii.eqb Bool.eqb].
  destruct (if_length_status (map f places)) as [[H1 H2] [H3 H4]].
  split; [|split].
  - split; intros H; [apply H1; congruence | now rewrite (H2 H)].
  - split; intros H; [apply H3; congruence | now rewrite (H4 H)].
  - rewrite <- (map_nil_iff f places).
    split; intros H; [apply H3; congruence | now rewrite (H4 H)].
Qed.

(** C3. For every provider response, [places_search_text] and
    [places_search_nearby] answer with the provider's places mapped one
    by one, with status ["ZERO_RESULTS"] exactly when that mapped results
    array is empty and with ["OK"] otherwise. *)
Theorem places_search_status (query : string) (args : NearbyArgs)
        (text_resp : SearchTextResponse) (nearby_resp : SearchNearbyResponse) :
  status_tracks_results (resume (places_search_text_handler query) text_resp)
                        (nullish (text_places text_resp) [])
  /\ status_tracks_results (resume (places_search_nearby_handler args) nearby_resp)
                           (nullish (nearby_places nearby_resp) []).
Proof.
  split.
  - unfold places_search_text_handler, and_then.
    cbn [resume placesSearchText]. cbv zeta.
    apply status_of_mapped. intros p. repeat split.
  - unfold places_search_nearby_handler, and_then.
    cbn [resume placesSearchNearby]. cbv zeta.
    apply status_of_mapped. intros p. repeat split.
Qed.

(** C5. When the provider returns no routes (the list is empty or
    absent) [directions] answers [{routes: [], status: "ZERO_RESULTS"}],
    and when [mode] is omitted the request carries the travel mode for
    driving. *)
Theorem directions_zero_routes (args : DirectionsArgs) (data : ComputeRoutesResponse) :
  (routes data = Undefined \/ routes data = Null \/ routes data = Just [] ->
   resume (directions_handler args) data
   = VObj [ ("routes", VArr []); ("status", VStr "ZERO_RESULTS") ])
  /\ (mode args = None ->
      travelMode (request (issued (directions_handler args))) = DRIVE).
Proof.
  split.
  - intros [H | [H | H]]; cbn; rewrite H; reflexivity.
  - intros H. cbn. rewrite H. reflexivity.
Qed.

Lemma directions_zero_routes_witness :
  resume (directions_handler {| origin := "A"; destination := "B"; mode := None |})
         {| routes := Just [] |}
  = VObj [ ("routes", VArr []); ("status", VStr "ZERO_RESULTS") ]
  /\ travelMode
       (request (issued (directions_handler
                           {| origin := "A"; destination := "B"; mode := None |})))
     = DRIVE.
Proof.
  destruct (directions_zero_routes
              {| origin := "A"; destination := "B"; mode := None |}
              {| routes := Just [] |}) as [Hzero Hmode].
  split; [apply Hzero; right; right; reflexivity | apply Hmode; reflexivity].
Defined.

Lemma prefix_places (x : string) : String.prefix "places/" ("places/" +:+ x) = true.
Proof. apply String.prefix_correct. destruct x; reflexivity. Qed.

(** C10. [getPlace] turns its argument into a resource name: it puts
    ["places/"] in front exactly when the argument does not start with
    it, the normalization is idempotent, and the bare id and the full
    name lead to the same request. *)
Theorem getPlace_resource_name (placeId : string) :
  (String.prefix "places/" placeId = true -> resource_name placeId = placeId)
  /\ (String.prefix "places/" placeId = false ->
      resource_name placeId = "places/" +:+ placeId)
  /\ resource_name (resource_name placeId) = resource_name placeId
  /\ name (request (issued (places_get_place_handler placeId))) = resource_name placeId
  /\ (String.prefix "places/" placeId = false ->
      issued (getPlace ("places/" +:+ placeId)) = issued (getPlace placeId)).
Proof.
  assert (Hidem : resource_name (resource_name placeId) = resource_name placeId).
  { unfold resource_name at 2 3.
    destruct (String.prefix "places/" placeId) eqn:E.
    - unfold resource_name. now rewrite E.
    - unfold resource_name. now rewrite prefix_places. }
  repeat split.
  - intros H. unfold resource_name. now rewrite H.
  - intros H. unfold resource_name. now rewrite H.
  - exact Hidem.
  - intros H. unfold getPlace. cbn [issued].
    assert (Hn : resource_name ("places/" +:+ placeId) = resource_name placeId).
    { unfold resource_name at 2. rewrite H.
      unfold resource_name. now rewrite prefix_places. }
    now rewrite Hn.
Qed.

Lemma getPlace_resource_name_witness :
  resource_name "places/ChIJ" = "places/ChIJ"
  /\ resource_name "ChIJ" = "places/ChIJ"
  /\ issued (getPlace "places/ChIJ") = issued (getPlace "ChIJ").
Proof.
  destruct (getPlace_resource_name "places/ChIJ") as (Hfull & _).
  destruct (getPlace_resource_name "ChIJ") as (_ & Hbare & _ & _ & Hsame).
  split; [apply Hfull; reflexivity|].
  split; [apply Hbare; reflexivity | apply Hsame; reflexivity].
Defined.

(** C4. On a response whose leg carries no start or end location, the
    [directions] handler emits [start_location] and [end_location]
    objects whose [lat] and [lng] are [undefined], and the declared
    output schema rejects the result. *)
Theorem directions_output_rejected :
  resume (directions_handler sample_args) response_without_locations
  = VObj
      [ ("routes",
          VArr
            [ VObj
                [ ("distance_meters", VNum (of_Z 1200));
                  ("duration_seconds", VNum (of_Z 95));
                  ("legs",
                    VArr
                      [ VObj
                          [ ("start_location",
                              VObj [ ("lat", VUndefined); ("lng", VUndefined) ]);
                            ("end_location",
                              VObj [ ("lat", VUndefined); ("lng", VUndefined) ]);
                            ("distance_meters", VNum (of_Z 1200));
                            ("duration_seconds", VNum (of_Z 95)) ] ]) ] ]);
        ("status", VStr "OK") ]
  /\ accepts directions_outputSchema
             (resume (directions_handler sample_args) response_without_locations)
     = false.
Proof. split; vm_compute; reflexivity. Qed.

End ToolFacts.

(** ** Session routing *)

Module HttpFacts.
Import Http Statements.

Section Routes.

Variable isInitializeRequest : value -> bool.

Lemma lookup_session_absent (request : Request) (s : Server) :
  headers request !! "mcp-session-id" = None \/
  headers request !! "mcp-session-id" = Some EmptyString ->
  lookup_session request s = Missing.
Proof. unfold lookup_session. intros [-> | ->]; reflexivity. Qed.

Lemma lookup_session_present (request : Request) (s : Server) (sid : string) :
  headers request !! "mcp-session-id" = Some sid ->
  get (transports s) sid = Missing ->
  lookup_session request s = Missing.
Proof.
  unfold lookup_session. intros -> Hget. destruct (truthy sid); [exact Hget | reflexivity].
Qed.

(** C7. A POST request without a session id whose body is not an
    initialization message is answered with status 400 and the
    JSON-RPC error [{code: -32000, message: "Bad Request: No valid
    session ID provided"}]; the server state is left as it was, so no
    session is created. *)
Theorem post_without_session_id (request : Request) (s : Server) :
  headers request !! "mcp-session-id" = None \/
  headers request !! "mcp-session-id" = Some EmptyString ->
  isInitializeRequest (body request) = false ->
  post_mcp isInitializeRequest request s = (Sent 400 (JsonBody no_valid_session), s)
  /\ field "error" no_valid_session
     = VObj [ ("code", VNum (of_Z (-32000)));
              ("message", VStr "Bad Request: No valid session ID provided") ].
Proof.
  intros Hid Hinit. split; [|reflexivity].
  unfold post_mcp. rewrite (lookup_session_absent request s Hid), Hinit. reflexivity.
Qed.

(** C1, as the code has it.  A POST request whose session id the table
    lookup does not find is answered with status 400 and the JSON-RPC
    error body, the state unchanged, when its body is not an
    initialization message; when the body is an initialization
    message the router constructs a new transport, connects it and
    hands the request to it, as for a request without a session id. *)
Theorem post_unknown_session_id (request : Request) (s : Server) (sid : string) :
  headers request !! "mcp-session-id" = Some sid ->
  get (transports s) sid = Missing ->
  (isInitializeRequest (body request) = false ->
   post_mcp isInitializeRequest request s
   = (Sent 400 (JsonBody no_valid_session), s))
  /\ (isInitializeRequest (body request) = true ->
      post_mcp isInitializeRequest request s
      = (HandedOff (length (objects s)),
         {| objects := objects s ++ [ {| sessionId := None |} ];
            transports := transports s;
            connects := connects s ++ [length (objects s)] |})).
Proof.
  intros Hid Hget. unfold post_mcp.
  rewrite (lookup_session_present request s sid Hid Hget).
  split; intros ->; reflexivity.
Qed.

End Routes.

Lemma post_without_session_id_witness :
  post_mcp is_initialize (without_session_id tools_list) initial
  = (Sent 400 (JsonBody no_valid_session), initial).
Proof.
  apply (post_without_session_id is_initialize (without_session_id tools_list) initial).
  - left. reflexivity.
  - reflexivity.
Defined.

Lemma post_unknown_session_id_witness :
  post_mcp is_initialize (with_session_id "stale" tools_list) initial
  = (Sent 400 (JsonBody no_valid_session), initial).
Proof.
  apply (post_unknown_session_id is_initialize
           (with_session_id "stale" tools_list) initial "stale");
    reflexivity.
Defined.

(** C1 fails as stated: an initialization message sent with a session
    id that is not in the table is not refused.  The router builds
    transport number 0 and hands the request to it, and once that
    transport has drawn its id the table holds a new session. *)
Lemma post_initialize_with_stale_id :
  transports initial !! "stale" = None
  /\ fst (post_mcp is_initialize (with_session_id "stale" initialize) initial)
     = HandedOff 0
  /\ objects (snd (post_mcp is_initialize (with_session_id "stale" initialize) initial))
     = [ {| sessionId := None |} ]
  /\ transports
       (transport_initialize "0b0e7f3c-6f0a-4c53-9d3e-2f1f5a1c8e11" 0
          (snd (post_mcp is_initialize (with_session_id "stale" initialize) initial)))
     !! "0b0e7f3c-6f0a-4c53-9d3e-2f1f5a1c8e11" = Some 0%nat.
Proof. repeat split; vm_compute; reflexivity. Qed.

Lemma get_mcp_missing (request : Request) (s : Server) :
  lookup_session request s = Missing ->
  get_mcp request s = (Sent 400 (TextBody "Invalid or missing session ID"), s)
  /\ delete_mcp request s = (Sent 400 (TextBody "Invalid or missing session ID"), s).
Proof. unfold get_mcp, delete_mcp. intros ->. split; reflexivity. Qed.

(** C8. With the header [mcp-session-id: constructor] and an empty
    session table, the GET and DELETE routes do not answer 400: the
    table lookup returns the member that every object inherits, the
    reply is hijacked, and the call of [handleRequest] on that member
    throws. *)
Theorem get_delete_inherited_key :
  transports initial !! "constructor" = None
  /\ get_mcp (with_session_id "constructor" VUndefined) initial
     = (NotAFunction "constructor", initial)
  /\ delete_mcp (with_session_id "constructor" VUndefined) initial
     = (NotAFunction "constructor", initial).
Proof. repeat split; vm_compute; reflexivity. Qed.

Lemma onclose_objects (t : nat) (s : Server) : objects (onclose t s) = objects s.
Proof.
  unfold onclose. destruct (sessionId <$> objects s !! t) as [[sid|]|]; try reflexivity.
  destruct (truthy sid); reflexivity.
Qed.

(** C6. Closing is idempotent: closing a transport whose session id is
    not in the table leaves the state unchanged, and so does a second
    close right after a first. *)
Theorem onclose_idempotent (t : nat) (s : Server) :
  onclose t (onclose t s) = onclose t s
  /\ (forall sid : string,
        sessionId <$> objects s !! t = Some (Some sid) ->
        transports s !! sid = None ->
        onclose t s = s).
Proof.
  split.
  - unfold onclose at 1. rewrite onclose_objects.
    unfold onclose.
    destruct (sessionId <$> objects s !! t) as [[sid|]|]; try reflexivity.
    destruct (truthy sid); [|reflexivity].
    cbn [transports objects connects]. now rewrite delete_delete_eq.
  - intros sid Hsid Habsent. unfold onclose. rewrite Hsid.
    destruct (truthy sid); [|reflexivity].
    rewrite (delete_id _ _ Habsent). destruct s; reflexivity.
Qed.

Lemma onclose_idempotent_witness :
  onclose 0 {| objects := [ {| sessionId := Some "gone" |} ];
               transports := ∅; connects := [0%nat] |}
  = {| objects := [ {| sessionId := Some "gone" |} ];
       transports := ∅; connects := [0%nat] |}.
Proof.
  apply (onclose_idempotent 0
           {| objects := [ {| sessionId := Some "gone" |} ];
              transports := ∅; connects := [0%nat] |}) with (sid := "gone");
    reflexivity.
Defined.

(** The life of one session: an initialization message without a session
    id creates transport 0; once the transport has drawn its id the table
    finds it; after the transport closes the id is unknown again, a
    further message under it is refused, and a second close changes
    nothing. *)
Example session_lifecycle :
  let uuid := "3f2b8c1e-7a4d-4e0b-9c55-0d6a1b2c3d4e" in
  let '(o1, s1) := post_mcp is_initialize (without_session_id initialize) initial in
  let s2 := transport_initialize uuid 0 s1 in
  let '(o2, _) := post_mcp is_initialize (with_session_id uuid tools_list) s2 in
  let s3 := transport_close 0 s2 in
  let '(o3, s4) := post_mcp is_initialize (with_session_id uuid tools_list) s3 in
  o1 = HandedOff 0
  /\ o2 = HandedOff 0
  /\ transports s3 !! uuid = None
  /\ o3 = Sent 400 (JsonBody no_valid_session)
  /\ s4 = s3
  /\ transport_close 0 s3 = s3.
Proof. vm_compute. repeat split. Qed.

End HttpFacts.

(** ** Startup configuration *)

Module ConfigFacts.
Import Config.

Lemma digit_value_range (d : ascii) :
  is_digit d = true -> 0 <= digit_value d <= 9.
Proof.
  unfold is_digit, digit_value. intros H.
  apply andb_prop in H as [Hlo Hhi].
  apply Nat.leb_le in Hlo. apply Nat.leb_le in Hhi. lia.
Qed.

Lemma digits_value_lower (r : string) (acc : Z) :
  all_digits r = true -> 1 <= acc -> 1 <= digits_value acc r.
Proof.
  revert acc. induction r as [|d r IH]; intros acc Hd Hacc; cbn [digits_value].
  - exact Hacc.
  - cbn [all_digits] in Hd. apply andb_prop in Hd as [Hc Hr].
    apply IH; [exact Hr|]. pose proof (digit_value_range d Hc). lia.
Qed.

Lemma digits_value_nonneg (r : string) (acc : Z) :
  all_digits r = true -> 0 <= acc -> 0 <= digits_value acc r.
Proof.
  revert acc. induction r as [|d r IH]; intros acc Hd Hacc; cbn [digits_value].
  - exact Hacc.
  - cbn [all_digits] in Hd. apply andb_prop in Hd as [Hc Hr].
    apply IH; [exact Hr|]. pose proof (digit_value_range d Hc). lia.
Qed.

Lemma canonical_all_digits (d : string) :
  canonical_digits d = true -> all_digits d = true.
Proof.
  destruct d as [|c r]; [discriminate|]. unfold canonical_digits.
  intros H. now apply andb_prop in H as [H _].
Qed.

(** A canonical spelling other than ["0"] is that of an integer that is
    at least 1. *)
Lemma canonical_digits_lower (d : string) :
  canonical_digits d = true -> String.eqb d "0" = false ->
  1 <= digits_value 0 d.
Proof.
  destruct d as [|c r]; [discriminate|]. unfold canonical_digits.
  intros H Hz. apply andb_prop in H as [Hd Hlead].
  cbn [all_digits] in Hd. apply andb_prop in Hd as [Hc Hr].
  pose proof (digit_value_range c Hc) as Hrange.
  cbn [digits_value]. apply digits_value_lower; [exact Hr|].
  assert (Hnz : digit_value c <> 0); [|lia].
  intros H0.
  assert (Hc0 : c = "0"%char).
  { unfold digit_value in H0. rewrite <- (ascii_nat_embedding c).
    replace (nat_of_ascii c) with 48%nat by lia. reflexivity. }
  subst c. cbn [Ascii.eqb Bool.eqb negb orb] in Hlead.
  apply String.eqb_eq in Hlead. subst r. discriminate Hz.
Qed.

Lemma double_of_integer_nonneg (N v : Z) :
  double_of_integer N = Some v -> 0 <= v.
Proof.
  unfold double_of_integer. destruct (of_Z N) as [s| s | |s m e]; try discriminate.
  - intros [= <-]. lia.
  - intros [= <-]. destruct (0 <=? e) eqn:He.
    + apply Z.leb_le in He. pose proof (Z.pow_nonneg 2 e). lia.
    + apply Z.div_pos; [lia|]. apply Z.pow_pos_nonneg; [lia|].
      apply Z.leb_gt in He. lia.
Qed.

Lemma digit_is_no_minus (c : ascii) : is_digit c = true -> Ascii.eqb c "-" = false.
Proof. intros H. apply Ascii.eqb_neq. intros ->. discriminate H. Qed.

(** The canonical spelling of an integer from 0 to 2^53 is read as that
    integer. *)
Lemma asIntPositive_safe (p : string) :
  canonical_digits p = true -> digits_value 0 p <= safe_integer ->
  asIntPositive p = inr (digits_value 0 p).
Proof.
  intros Hcan Hsafe. pose proof (canonical_all_digits p Hcan) as Hd.
  pose proof (digits_value_nonneg p 0 Hd ltac:(lia)) as Hnn.
  destruct p as [|c r]; [discriminate|].
  assert (Hc : Ascii.eqb c "-" = false).
  { apply digit_is_no_minus. cbn [all_digits] in Hd. now apply andb_prop in Hd. }
  unfold asIntPositive, asInt. rewrite Hc, Hcan. cbn [andb negb].
  apply Z.leb_le in Hsafe. rewrite Hsafe.
  apply Z.ltb_ge in Hnn. now rewrite Hnn.
Qed.

(** What the accessor accepts is the canonical spelling of an integer,
    and what it yields is not negative. *)
Lemma asIntPositive_accepts (p : string) (n : Z) :
  asIntPositive p = inr n -> canonical_digits p = true /\ 0 <= n.
Proof.
  unfold asIntPositive. destruct (asInt p) as [e|n0] eqn:E; [discriminate|].
  destruct (n0 <? 0) eqn:Hn; [discriminate|]. intros [= <-].
  apply Z.ltb_ge in Hn. split; [|exact Hn].
  unfold asInt in E. destruct p as [|c r]; [discriminate|].
  destruct (Ascii.eqb c "-") eqn:Hc.
  - exfalso.
    destruct (canonical_digits r && negb (true && String.eqb r "0")) eqn:Hcan;
      [|discriminate].
    apply andb_prop in Hcan as [Hcan Hz]. cbn [andb] in Hz.
    apply negb_true_iff in Hz.
    pose proof (canonical_digits_lower r Hcan Hz) as Hlow.
    destruct (digits_value 0 r <=? safe_integer).
    + injection E as E. lia.
    + destruct (double_of_integer (digits_value 0 r)) as [v|] eqn:Ev; [|discriminate].
      pose proof (double_of_integer_nonneg _ _ Ev) as Hv.
      destruct (toString_integer v) as [printed|] eqn:Ep; [|discriminate].
      destruct (printed =? digits_value 0 r) eqn:Eq; [|discriminate].
      injection E as E. assert (v = 0) by lia. subst v.
      vm_compute in Ep. injection Ep as Ep. apply Z.eqb_eq in Eq. lia.
  - destruct (canonical_digits (String c r) && negb (false && String.eqb (String c r) "0"))
      eqn:Hcan; [|discriminate].
    now apply andb_prop in Hcan as [Hcan _].
Qed.

(** The accessor on sample values: 0 is accepted; a sign, a leading
    zero, white space, a fraction or an exponent is refused; beyond 2^53
    a spelling is accepted only when it is what the nearest binary64
    value prints as. *)
Example asIntPositive_samples :
  map asIntPositive
      [ "0"; "3000"; "65535"; "70000"; "-1"; "-0"; "08"; EmptyString; " 3"; "3.0";
        "1e3"; "+5"; "9007199254740993"; "9007199254740994";
        "1152921504606847000"; "1152921504606846976"; "1000000000000000000000" ]
  = [ inr 0; inr 3000; inr 65535; inr 70000;
      inl "should be a positive integer";
      inl invalid_integer; inl invalid_integer; inl invalid_integer;
      inl invalid_integer; inl invalid_integer; inl invalid_integer;
      inl invalid_integer; inl invalid_integer;
      inr 9007199254740994; inr 1152921504606846976;
      inl invalid_integer; inl invalid_integer ].
Proof. vm_compute. reflexivity. Qed.

(** Up to 2^53 the computation with binary64 values agrees with the
    direct reading, on sample integers. *)
Example safe_integers_print_themselves :
  forallb (fun n => rounds_to n n
                    && match toString_integer n with
                       | Some printed => printed =? n
                       | None => false
                       end)
          [ 0; 1; 9; 10; 80; 443; 3000; 8080; 65535; 65536; 2 ^ 31;
            2 ^ 53 - 1; 2 ^ 53 ]
  = true.
Proof. vm_compute. reflexivity. Qed.

(** C9, as the code has it.  The configuration is computed from the
    environment before the server starts.  Without the API key the
    process exits and never listens.  With the key, an unset [PORT]
    gives port 3000; a [PORT] that is the canonical spelling of an
    integer from 0 to 2^53 gives that integer, 0 included; what the
    accessor accepts is always such a spelling of an integer that is not
    negative; what it refuses ends the process.  The server listens on
    the configured port when it lies in 0..65535 and the address can be
    bound; a port from 65536 on ends the process. *)
Theorem config_at_startup (bind : Z -> string -> option string)
        (env : gmap string string) :
  (env !! "GOOGLE_MAPS_API_KEY" = None ->
   exists e, config asIntPositive env = inl e
             /\ main asIntPositive bind env = Exited e)
  /\ (forall k : string,
        env !! "GOOGLE_MAPS_API_KEY" = Some k -> blank k = false ->
        (env !! "PORT" = None ->
         config asIntPositive env = inr {| googleMapsApiKey := k; port := 3000 |})
        /\ (forall p : string,
              env !! "PORT" = Some p ->
              (canonical_digits p = true -> digits_value 0 p <= safe_integer ->
               config asIntPositive env
               = inr {| googleMapsApiKey := k; port := digits_value 0 p |})
              /\ (forall c, config asIntPositive env = inr c ->
                            canonical_digits p = true /\ 0 <= port c)
              /\ (forall e, asIntPositive p = inl e ->
                            main asIntPositive bind env
                            = Exited (env_var_error "PORT" e))))
  /\ (forall c : Config,
        config asIntPositive env = inr c ->
        (0 <= port c < 65536 -> bind (port c) "0.0.0.0" = None ->
         main asIntPositive bind env = Listening (port c) "0.0.0.0")
        /\ (65536 <= port c ->
            main asIntPositive bind env = Exited "ERR_SOCKET_BAD_PORT")).
Proof.
  split; [|split].
  - intros Hk. unfold main, config. rewrite Hk. cbn. eexists; split; reflexivity.
  - intros k Hk Hb.
    assert (Hreq : required_asString "GOOGLE_MAPS_API_KEY" (Some k) = inr k).
    { unfold required_asString. now rewrite Hb. }
    split.
    + intros Hp. unfold config. rewrite Hk, Hreq, Hp. reflexivity.
    + intros p Hp. unfold main, config. rewrite Hk, Hreq, Hp. cbn [default from_option id].
      split; [|split].
      * intros Hcan Hsafe. now rewrite (asIntPositive_safe p Hcan Hsafe).
      * intros c. destruct (asIntPositive p) as [e|n] eqn:E; [discriminate|].
        intros [= <-]. cbn [port]. now apply asIntPositive_accepts.
      * intros e ->. reflexivity.
  - intros c Hc. unfold main, listen. rewrite Hc. split.
    + intros [Hlo Hhi] Hbind.
      apply Z.leb_le in Hlo. apply Z.ltb_lt in Hhi. now rewrite Hlo, Hhi, Hbind.
    + intros Hbig. destruct (0 <=? port c); [|reflexivity].
      assert (Hhi : (port c <? 65536) = false) by (apply Z.ltb_ge; lia).
      now rewrite Hhi.
Qed.

(** C9 fails as stated: with [PORT=0] the configuration is accepted with
    port 0, which is not a positive integer, and the server listens. *)
Lemma port_zero_is_admitted :
  config asIntPositive {[ "GOOGLE_MAPS_API_KEY" := "k"; "PORT" := "0" ]}
  = inr {| googleMapsApiKey := "k"; port := 0 |}
  /\ main asIntPositive free_address {[ "GOOGLE_MAPS_API_KEY" := "k"; "PORT" := "0" ]}
     = Listening 0 "0.0.0.0".
Proof. split; vm_compute; reflexivity. Qed.

Lemma config_at_startup_witness :
  (exists e, main asIntPositive free_address {[ "PORT" := "8080" ]} = Exited e)
  /\ main asIntPositive free_address {[ "GOOGLE_MAPS_API_KEY" := "k" ]}
     = Listening 3000 "0.0.0.0"
  /\ main asIntPositive free_address {[ "GOOGLE_MAPS_API_KEY" := "k"; "PORT" := "8080" ]}
     = Listening 8080 "0.0.0.0"
  /\ main asIntPositive free_address {[ "GOOGLE_MAPS_API_KEY" := "k"; "PORT" := "http" ]}
     = Exited (env_var_error "PORT" invalid_integer)
  /\ main asIntPositive free_address {[ "GOOGLE_MAPS_API_KEY" := "k"; "PORT" := "70000" ]}
     = Exited "ERR_SOCKET_BAD_PORT".
Proof.
  split; [|split; [|split; [|split]]].
  - destruct (config_at_startup free_address {[ "PORT" := "8080" ]}) as (Hkey & _).
    destruct (Hkey eq_refl) as (e & _ & Hmain). now exists e.
  - destruct (config_at_startup free_address {[ "GOOGLE_MAPS_API_KEY" := "k" ]})
      as (_ & Hk & Hrun).
    destruct (Hk "k" eq_refl eq_refl) as (Hdef & _).
    destruct (Hrun _ (Hdef eq_refl)) as (Hlisten & _).
    apply Hlisten; [cbn; lia | reflexivity].
  - destruct (config_at_startup free_address
                {[ "GOOGLE_MAPS_API_KEY" := "k"; "PORT" := "8080" ]})
      as (_ & Hk & Hrun).
    destruct (Hk "k" eq_refl eq_refl) as (_ & Hport).
    destruct (Hport "8080" eq_refl) as (Hsafe & _).
    destruct (Hrun _ (Hsafe eq_refl ltac:(vm_compute; discriminate))) as (Hlisten & _).
    apply Hlisten; [change (0 <= 8080 < 65536); lia | reflexivity].
  - destruct (config_at_startup free_address
                {[ "GOOGLE_MAPS_API_KEY" := "k"; "PORT" := "http" ]})
      as (_ & Hk & _).
    destruct (Hk "k" eq_refl eq_refl) as (_ & Hport).
    destruct (Hport "http" eq_refl) as (_ & _ & Hbad).
    exact (Hbad invalid_integer eq_refl).
  - destruct (config_at_startup free_address
                {[ "GOOGLE_MAPS_API_KEY" := "k"; "PORT" := "70000" ]})
      as (_ & Hk & Hrun).
    destruct (Hk "k" eq_refl eq_refl) as (_ & Hport).
    destruct (Hport "70000" eq_refl) as (Hsafe & _).
    destruct (Hrun _ (Hsafe eq_refl ltac:(vm_compute; discriminate))) as (_ & Hbig).
    apply Hbig. change (65536 <= 70000). lia.
Defined.

End ConfigFacts.

(** ** Outputs against their declared schemas *)

Module SchemaFacts.
Import GoogleMaps Zod Tools Conformance.

Lemma accepts_object_cons (k : string) (z : schema) (sh : list (string * schema))
      (fields : list (string * value)) :
  accepts (object ((k, z) :: sh)) (VObj fields)
  = accepts z (get_field k fields) && accepts (object sh) (VObj fields).
Proof. reflexivity. Qed.

Lemma accepts_object_nil (fields : list (string * value)) :
  accepts (object []) (VObj fields) = true.
Proof. reflexivity. Qed.

Lemma accepts_array_map {A} (z : schema) (f : A -> value) (xs : list A) :
  accepts (array z) (VArr (map f xs)) = forallb (fun x => accepts z (f x)) xs.
Proof.
  cbn [accepts]. induction xs as [|x xs IH]; cbn [map forallb]; [reflexivity|].
  now rewrite IH.
Qed.

Lemma forallb_pointwise {A} (p q : A -> bool) (xs : list A) :
  (forall x, p x = q x) -> forallb p xs = forallb q xs.
Proof.
  intros H. induction xs as [|x xs IH]; cbn [forallb]; [reflexivity|].
  now rewrite H, IH.
Qed.

Lemma accepts_string (x : string) : accepts string_ (VStr x) = true.
Proof. reflexivity. Qed.

Lemma accepts_number (x : maybe number) :
  accepts number_ (num x) = is_number x.
Proof. destruct x; reflexivity. Qed.

Lemma accepts_optional_number (x : maybe number) :
  accepts (optional number_) (num x) = number_or_absent x.
Proof. destruct x; reflexivity. Qed.

Lemma accepts_optional_string (x : maybe string) :
  accepts (optional string_) (str x) = string_or_absent x.
Proof. destruct x; reflexivity. Qed.

Lemma accepts_optional_seconds (d : maybe DurationValue) :
  accepts (optional number_) (opt_num (durationToSeconds (to_option d)))
  = seconds_or_absent d.
Proof.
  unfold seconds_or_absent. destruct (durationToSeconds (to_option d)); reflexivity.
Qed.

Lemma accepts_coordinates (l : maybe Location) :
  accepts (object [("lat", number_); ("lng", number_)])
          (VObj [ ("lat", num (chain (chain l latLng) latitude));
                  ("lng", num (chain (chain l latLng) longitude)) ])
  = has_coordinates l.
Proof.
  unfold has_coordinates.
  rewrite !accepts_object_cons, accepts_object_nil.
  cbn [get_field String.eqb Ascii.eqb Bool.eqb].
  now rewrite !accepts_number, andb_true_r.
Qed.

Ltac object_fields :=
  rewrite ?accepts_object_cons, ?accepts_object_nil;
  cbn [get_field String.eqb Ascii.eqb Bool.eqb].

Lemma accepts_leg (leg : RouteLeg) :
  accepts
    (object
       [ ("start_location", object [("lat", number_); ("lng", number_)]);
         ("end_location", object [("lat", number_); ("lng", number_)]);
         ("distance_meters", optional number_);
         ("duration_seconds", optional number_) ])
    (VObj
       [ ("start_location",
           VObj [ ("lat", num (chain (chain (startLocation leg) latLng) latitude));
                  ("lng", num (chain (chain (startLocation leg) latLng) longitude)) ]);
         ("end_location",
           VObj [ ("lat", num (chain (chain (endLocation leg) latLng) latitude));
                  ("lng", num (chain (chain (endLocation leg) latLng) longitude)) ]);
         ("distance_meters", num (leg_distanceMeters leg));
         ("duration_seconds",
           opt_num (durationToSeconds (to_option (leg_duration leg)))) ])
  = leg_ok leg.
Proof.
  unfold leg_ok.
  rewrite accepts_object_cons. cbn [get_field String.eqb Ascii.eqb Bool.eqb].
  rewrite accepts_coordinates.
  rewrite accepts_object_cons. cbn [get_field String.eqb Ascii.eqb Bool.eqb].
  rewrite accepts_coordinates.
  object_fields.
  rewrite accepts_optional_number, accepts_optional_seconds.
  now rewrite andb_true_r, !andb_assoc.
Qed.

(** X3. The output of [directions] passes the declared output schema
    exactly when, in the provider's response, every leg has start and end
    coordinates that are numbers, no optional distance is [null] or
    [NaN], and every duration converts to nothing or to a number. *)
Theorem directions_output_conforms (args : DirectionsArgs) (data : ComputeRoutesResponse) :
  accepts directions_outputSchema (resume (directions_handler args) data)
  = forallb route_ok (nullish (routes data) []).
Proof.
  unfold directions_outputSchema, directions_handler, and_then.
  cbn [resume directions].
  object_fields.
  rewrite accepts_array_map, accepts_string, andb_true_r.
  apply forallb_pointwise. intros route. unfold route_ok.
  object_fields.
  rewrite accepts_optional_number, accepts_optional_seconds, accepts_array_map.
  rewrite (forallb_pointwise _ leg_ok) by (intros leg; apply accepts_leg).
  now rewrite andb_true_r, !andb_assoc.
Qed.

Lemma accepts_place_location (l : maybe LatLng) :
  accepts (optional (object [("lat", number_); ("lng", number_)]))
          match l with
          | Just l => VObj [ ("lat", num (latitude l)); ("lng", num (longitude l)) ]
          | _ => VUndefined
          end
  = match l with
    | Just l => is_number (latitude l) && is_number (longitude l)
    | _ => true
    end.
Proof.
  destruct l as [| |l]; try reflexivity.
  change (accepts (optional ?z) (VObj ?fs)) with (accepts z (VObj fs)).
  object_fields. now rewrite !accepts_number, andb_true_r.
Qed.

Lemma accepts_place (p : Place) :
  accepts place_result_schema
    (VObj
       [ ("id", str (id p));
         ("display_name", str (chain (displayName p) text));
         ("formatted_address", str (formattedAddress p));
         ("location",
           match location p with
           | Just l => VObj [ ("lat", num (latitude l)); ("lng", num (longitude l)) ]
           | _ => VUndefined
           end);
         ("rating", num (rating p));
         ("user_rating_count", num (userRatingCount p));
         ("primary_type", str (primaryType p)) ])
  = place_ok p.
Proof.
  unfold place_result_schema, place_ok. object_fields.
  rewrite accepts_place_location, !accepts_optional_string, !accepts_optional_number.
  now rewrite andb_true_r, !andb_assoc.
Qed.

(** X4. The outputs of [places_search_text] and [places_search_nearby]
    pass their output schemas exactly when no optional field of a
    returned place is [null] or a [NaN], and every place that has a
    location has both coordinates as numbers. *)
Theorem places_search_output_conforms (query : string) (args : NearbyArgs)
        (text_resp : SearchTextResponse) (nearby_resp : SearchNearbyResponse) :
  accepts places_search_text_outputSchema
          (resume (places_search_text_handler query) text_resp)
  = forallb place_ok (nullish (text_places text_resp) [])
  /\ accepts places_search_nearby_outputSchema
             (resume (places_search_nearby_handler args) nearby_resp)
     = forallb place_ok (nullish (nearby_places nearby_resp) []).
Proof.
  split.
  - unfold places_search_text_outputSchema, places_search_text_handler, and_then.
    cbn [resume placesSearchText]. cbv zeta. object_fields.
    rewrite accepts_array_map, accepts_string, andb_true_r.
    apply forallb_pointwise. intros p. apply accepts_place.
  - unfold places_search_nearby_outputSchema, places_search_nearby_handler, and_then.
    cbn [resume placesSearchNearby]. cbv zeta. object_fields.
    rewrite accepts_array_map, accepts_string, andb_true_r.
    apply forallb_pointwise. intros p. apply accepts_place.
Qed.

(** X5. The output of [places_get_place] passes its output schema exactly
    when no optional field of the place, phone and website included, is
    [null] or a [NaN] and a present location has numeric coordinates. *)
Theorem places_get_place_output_conforms (place_id : string) (p : Place) :
  accepts places_get_place_outputSchema
          (resume (places_get_place_handler place_id) p)
  = place_details_ok p.
Proof.
  unfold places_get_place_outputSchema, places_get_place_handler, and_then.
  cbn [resume getPlace]. unfold place_details_ok, place_ok.
  object_fields. object_fields.
  rewrite accepts_place_location, !accepts_optional_string, !accepts_optional_number.
  now rewrite !andb_true_r, !andb_assoc.
Qed.

(** X2. The output of [directions] has one route per route of the
    provider's response, and its status is ["OK"] exactly when there is
    at least one and ["ZERO_RESULTS"] exactly when there is none. *)
Theorem directions_status (args : DirectionsArgs) (data : ComputeRoutesResponse) :
  status_tracks_routes (resume (directions_handler args) data)
                       (length (nullish (routes data) [])).
Proof.
  unfold status_tracks_routes, directions_handler, and_then.
  cbn [resume directions field get_field String.eqb Ascii.eqb Bool.eqb].
  eexists. split; [reflexivity|]. split; [apply length_map|].
  destruct (routes data) as [| |[|r rs]]; cbn; repeat split; intros; congruence.
Qed.

(** X22. The travel mode of the request identifies the mode asked for:
    two [directions] calls carry the same travel mode exactly when their
    modes, an omitted one counting as driving, are the same. *)
Theorem directions_travel_mode (a b : DirectionsArgs) :
  travelMode (request (issued (directions_handler a)))
  = travelMode (request (issued (directions_handler b)))
  <-> default driving (mode a) = default driving (mode b).
Proof.
  unfold directions_handler, and_then, directions.
  cbn [issued request travelMode default].
  split; [|now intros ->].
  destruct (default driving (mode a)), (default driving (mode b));
    cbn; congruence.
Qed.

End SchemaFacts.

Module MoreToolFacts.
Import Zod Conformance SchemaFacts.

Section ApiKey.

Variable API_KEY : string.

(** X6. The output of [geocode] lists one result per result of the
    provider, hands the provider's status through, and passes the output
    schema exactly when no coordinate is [NaN]. *)
Theorem geocode_output (address : string)
        (res : Geocoding.HttpResponse Geocoding.GeocodeResponseData) :
  let out := GoogleMaps.resume (Geocoding.geocode_handler API_KEY address) res in
  field "status" out = VStr (Geocoding.status (Geocoding.data res))
  /\ (exists rs, field "results" out = VArr rs
                 /\ length rs = length (Geocoding.results (Geocoding.data res)))
  /\ accepts Geocoding.geocode_outputSchema out
     = forallb geocode_result_ok (Geocoding.results (Geocoding.data res)).
Proof.
  unfold Geocoding.geocode_handler, Geocoding.geocode_outputSchema, GoogleMaps.and_then.
  cbn [GoogleMaps.resume Geocoding.geocode]. cbv zeta.
  split; [reflexivity|]. split.
  - eexists. split; [reflexivity|]. apply length_map.
  - object_fields.
    rewrite accepts_array_map, accepts_string, andb_true_r.
    apply forallb_pointwise. intros r. unfold geocode_result_ok.
    object_fields. object_fields.
    rewrite !accepts_string. cbn [accepts andb]. now rewrite !andb_true_r.
Qed.

End ApiKey.

Import Autocomplete.

(** X7. The output of [places_autocomplete] passes its output schema
    exactly when no place prediction has a [null] place id or a [null] or
    [NaN] distance; [kind] and [text] are always valid, and a suggestion
    without a place prediction always conforms. *)
Theorem places_autocomplete_output_conforms (args : AutocompleteArgs)
        (resp : AutocompletePlacesResponse) :
  accepts places_autocomplete_outputSchema
          (GoogleMaps.resume (places_autocomplete_handler args) resp)
  = forallb suggestion_ok (nullish (suggestions resp) []).
Proof.
  unfold places_autocomplete_outputSchema, places_autocomplete_handler,
    GoogleMaps.and_then.
  cbn [GoogleMaps.resume placesAutocomplete]. cbv zeta. object_fields.
  rewrite accepts_array_map, andb_true_r.
  apply forallb_pointwise. intros s. unfold suggestion_ok.
  destruct (placePrediction s) as [| |pp]; try reflexivity.
  object_fields.
  rewrite accepts_optional_string, accepts_optional_number, accepts_string.
  cbn [accepts existsb String.eqb Ascii.eqb Bool.eqb orb andb].
  now rewrite andb_true_r.
Qed.

(** X8. The autocomplete request carries a location bias exactly when the
    centre latitude, the centre longitude and the radius are all given
    and the radius is neither zero nor [NaN]; the bias is then the
    circle with that centre and radius.  In every other case the bias is
    left out. *)
Theorem places_autocomplete_bias (args : AutocompleteArgs) (c : GoogleMaps.Circle) :
  locationBias (GoogleMaps.request (GoogleMaps.issued (places_autocomplete_handler args)))
  = Some c
  <-> exists la ln r : number,
        bias_center_lat args = Some la
        /\ bias_center_lng args = Some ln
        /\ bias_radius_meters args = Some r
        /\ truthy_number r = true
        /\ c = {| GoogleMaps.center :=
                    {| GoogleMaps.latitude := Just la; GoogleMaps.longitude := Just ln |};
                  GoogleMaps.radius := r |}.
Proof.
  unfold places_autocomplete_handler, GoogleMaps.and_then, placesAutocomplete.
  cbn [GoogleMaps.issued GoogleMaps.request locationBias mbind option_bind
       biasCenter biasRadiusMeters].
  destruct (bias_center_lat args) as [la|], (bias_center_lng args) as [ln|],
           (bias_radius_meters args) as [r|];
    try (split; [discriminate | intros (? & ? & ? & ? & ? & ? & _); discriminate]).
  cbn [lat lng]. destruct (truthy_number r) eqn:Hr.
  - split.
    + intros [= <-]. now exists la, ln, r.
    + intros (la' & ln' & r' & [= <-] & [= <-] & [= <-] & _ & ->). reflexivity.
  - split; [discriminate|].
    intros (la' & ln' & r' & _ & _ & [= <-] & Ht & _). congruence.
Qed.

End MoreToolFacts.

(** ** The duration pattern, in full *)

Module PatternFacts.
Import GoogleMaps Tools Statements Conformance DurationFacts.

Lemma append_assoc (a b c : string) : (a +:+ b) +:+ c = a +:+ b +:+ c.
Proof.
  induction a as [|x a IH]; [reflexivity|].
  change (String x ((a +:+ b) +:+ c) = String x (a +:+ b +:+ c)). now rewrite IH.
Qed.

Lemma span_digits_spec (s d r : string) :
  span_digits s = (d, r) ->
  s = d +:+ r /\ all_digits d = true /\ starts_without_digit r.
Proof.
  revert d r. induction s as [|c s IH]; intros d r; cbn [span_digits].
  - intros [= <- <-]. repeat split.
  - destruct (is_digit c) eqn:Hc.
    + destruct (span_digits s) as [d' k] eqn:E. intros [= <- <-].
      destruct (IH d' k eq_refl) as (-> & Hd & Hk).
      repeat split; [|exact Hk]. cbn [all_digits]. now rewrite Hc, Hd.
    + intros [= <- <-]. repeat split. exact Hc.
Qed.

Lemma duration_re_exec_numeral (s m : string) :
  duration_re_exec s = Some m -> numeral m /\ s = m +:+ "s".
Proof.
  unfold duration_re_exec.
  destruct (span_digits s) as [ip r] eqn:E.
  apply span_digits_spec in E as (-> & Hip & _).
  destruct ip as [|c ip]; [discriminate|].
  destruct r as [|c' r']; [discriminate|].
  destruct c' as [[] [] [] [] [] [] [] []]; try discriminate.
  - destruct r'; [|discriminate]. intros [= <-].
    split; [|reflexivity]. exists (String c ip).
    split; [exact Hip | split; [discriminate | left; reflexivity]].
  - destruct (span_digits r') as [fp r''] eqn:E'.
    apply span_digits_spec in E' as (-> & Hfp & _).
    destruct fp as [|f fp]; [discriminate|].
    destruct r'' as [|c'' r3]; [discriminate|].
    destruct c'' as [[] [] [] [] [] [] [] []]; try discriminate.
    destruct r3; [|discriminate]. intros [= <-]. split.
    + exists (String c ip).
      split; [exact Hip | split; [discriminate | right]].
      exists (String f fp).
      split; [exact Hfp | split; [discriminate | reflexivity]].
    + now rewrite !append_assoc.
Qed.

Lemma numeral_duration_re_exec (m : string) :
  numeral m -> duration_re_exec (m +:+ "s") = Some m.
Proof.
  intros (ip & Hip & Hne & [-> | (fp & Hfp & Hfne & ->)]).
  - now apply duration_re_exec_integer.
  - rewrite !append_assoc. now apply duration_re_exec_fraction.
Qed.

Lemma durationToSeconds_string (s : string) :
  durationToSeconds (Some (DurStr s)) = Number <$> duration_re_exec s.
Proof. destruct s; reflexivity. Qed.

(** X1. A duration given as a string converts to a number exactly when
    the string is an unsigned decimal numeral followed by [s], and the
    number is then [Number] of the numeral; every other string, the empty
    one included, converts to nothing. *)
Theorem duration_string_converts_iff (s : string) (x : number) :
  durationToSeconds (Some (DurStr s)) = Some x
  <-> exists m : string, numeral m /\ s = m +:+ "s" /\ x = Number m.
Proof.
  rewrite durationToSeconds_string. split.
  - destruct (duration_re_exec s) as [m|] eqn:E; [|discriminate].
    intros [= <-]. apply duration_re_exec_numeral in E as [Hm ->]. now exists m.
  - intros (m & Hm & -> & ->). now rewrite (numeral_duration_re_exec m Hm).
Qed.

(** X21. [durationToSeconds] yields nothing in two cases only: the
    duration is absent, or it is a string that is not an unsigned decimal
    numeral followed by [s].  A duration message always converts, an
    empty one to 0. *)
Theorem durationToSeconds_absent_iff (d : option DurationValue) :
  (durationToSeconds d = None
   <-> d = None
       \/ exists s : string,
            d = Some (DurStr s) /\ forall m, numeral m -> s <> m +:+ "s")
  /\ durationToSeconds (Some (DurMsg {| seconds := Undefined; nanos := Undefined |}))
     = Some (S754_zero false).
Proof.
  split; [|vm_compute; reflexivity].
  destruct d as [[s|msg]|].
  - rewrite durationToSeconds_string. split.
    + destruct (duration_re_exec s) as [m|] eqn:E; [discriminate|].
      intros _. right. exists s. split; [reflexivity|].
      intros m Hm ->. rewrite (numeral_duration_re_exec m Hm) in E. discriminate.
    + intros [H | (s' & [= <-] & Hs)]; [discriminate|].
      destruct (duration_re_exec s) as [m|] eqn:E; [|reflexivity].
      apply duration_re_exec_numeral in E as [Hm ->]. now destruct (Hs m Hm).
  - split; [discriminate|]. intros [H | (s' & H & _)]; discriminate.
  - split; [now left | reflexivity].
Qed.

End PatternFacts.

(** ** The wrappers that take the API key *)

Module KeyedFacts.
Import GoogleMaps Keyed.

Lemma assertApiKey_missing (apiKey : option string) :
  apiKey = None \/ apiKey = Some EmptyString -> assertApiKey apiKey = inl missing_key.
Proof. intros [-> | ->]; reflexivity. Qed.

Lemma assertApiKey_given (k : string) :
  k <> EmptyString -> assertApiKey (Some k) = inr k.
Proof.
  intros Hk. unfold assertApiKey.
  destruct (String.eqb k EmptyString) eqn:E; [|reflexivity].
  apply String.eqb_eq in E. contradiction.
Qed.

(** X9. Without an API key (absent or empty) every wrapper is rejected
    with the same error before a request is built, whatever its other
    arguments. *)
Theorem wrappers_reject_without_key
        (apiKey : option string) (a q o d ph tq inp pid : string)
        (mode : option DirectionsMode) (la ln r : number)
        (types : option (list string)) (count : option number)
        (opts : option Autocomplete.Options) :
  apiKey = None \/ apiKey = Some EmptyString ->
  geocode apiKey a = inl missing_key
  /\ searchPlaces (D := value) apiKey q = inl missing_key
  /\ directions apiKey o d mode = inl missing_key
  /\ placesSearchText apiKey tq = inl missing_key
  /\ placesSearchNearby apiKey la ln r types count = inl missing_key
  /\ placesAutocomplete apiKey inp opts = inl missing_key
  /\ getPlace apiKey pid = inl missing_key.
Proof.
  intros H. pose proof (assertApiKey_missing apiKey H) as E.
  unfold geocode, searchPlaces, directions, placesSearchText, placesSearchNearby,
    placesAutocomplete, getPlace.
  rewrite E. repeat split.
Qed.

Lemma wrappers_reject_without_key_witness :
  directions (Some EmptyString) "A" "B" None = inl missing_key
  /\ getPlace None "ChIJ" = inl missing_key.
Proof.
  destruct (wrappers_reject_without_key (Some EmptyString) "a" "q" "A" "B" "p" "t" "i" "x"
              None (of_Z 0) (of_Z 0) (of_Z 1) None None None
              (or_intror eq_refl)) as (_ & _ & Hd & _).
  destruct (wrappers_reject_without_key None "a" "q" "A" "B" "p" "t" "i" "ChIJ"
              None (of_Z 0) (of_Z 0) (of_Z 1) None None None
              (or_introl eq_refl)) as (_ & _ & _ & _ & _ & _ & Hg).
  split; [exact Hd | exact Hg].
Defined.

(** X10. With an API key, each wrapper that takes the key builds the
    call of its keyless counterpart: the same request and field mask with
    the header [X-Goog-Api-Key] added for the places and routes clients,
    and the very same call, the key among the query parameters, for
    [geocode] and [searchPlaces]. *)
Theorem wrappers_agree_with_key
        (k : string) (a q o d tq inp pid : string)
        (mode : option DirectionsMode) (la ln r : number)
        (types : option (list string)) (count : option number)
        (opts : option Autocomplete.Options) :
  k <> EmptyString ->
  geocode (Some k) a = inr (Geocoding.geocode k a)
  /\ searchPlaces (D := value) (Some k) q = inr (Geocoding.searchPlaces k q)
  /\ directions (Some k) o d mode
     = inr {| issued := with_api_key k (issued (GoogleMaps.directions o d mode));
              resume := resume (GoogleMaps.directions o d mode) |}
  /\ placesSearchText (Some k) tq
     = inr {| issued := with_api_key k (issued (GoogleMaps.placesSearchText tq));
              resume := resume (GoogleMaps.placesSearchText tq) |}
  /\ placesSearchNearby (Some k) la ln r types count
     = inr {| issued :=
                with_api_key k
                  (issued (GoogleMaps.placesSearchNearby la ln r types count));
              resume := resume (GoogleMaps.placesSearchNearby la ln r types count) |}
  /\ placesAutocomplete (Some k) inp opts
     = inr {| issued := with_api_key k (issued (Autocomplete.placesAutocomplete inp opts));
              resume := resume (Autocomplete.placesAutocomplete inp opts) |}
  /\ getPlace (Some k) pid
     = inr {| issued := with_api_key k (issued (GoogleMaps.getPlace pid));
              resume := resume (GoogleMaps.getPlace pid) |}.
Proof.
  intros Hk. pose proof (assertApiKey_given k Hk) as E.
  unfold geocode, searchPlaces, directions, placesSearchText, placesSearchNearby,
    placesAutocomplete, getPlace.
  rewrite E. repeat split.
Qed.

Lemma wrappers_agree_with_key_witness :
  (headers (issued (GoogleMaps.getPlace "ChIJ")) ++ [ ("X-Goog-Api-Key", "k") ])%list
  = match getPlace (Some "k") "ChIJ" with
    | inr a => headers (issued a)
    | inl _ => []
    end.
Proof.
  destruct (wrappers_agree_with_key "k" "a" "q" "A" "B" "t" "i" "ChIJ"
              None (of_Z 0) (of_Z 0) (of_Z 1) None None None
              ltac:(discriminate)) as (_ & _ & _ & _ & _ & _ & Hg).
  rewrite Hg. reflexivity.
Defined.

End KeyedFacts.

(** ** The session table *)

Module SessionFacts.
Import Http Statements Sessions.

Lemma inherited_iff (k : string) :
  existsb (String.eqb k) Object_prototype = true <-> In k Object_prototype.
Proof.
  rewrite existsb_exists. split.
  - intros (x & Hx & E). apply String.eqb_eq in E. now subst.
  - intros H. exists k. split; [exact H | apply String.eqb_refl].
Qed.

Lemma lookup_session_header (request : Request) (s : Server) (sid : string) :
  sid <> EmptyString -> session_header sid request ->
  lookup_session request s = get (transports s) sid.
Proof.
  unfold lookup_session, session_header, truthy. intros Hne ->.
  destruct (String.eqb sid EmptyString) eqn:E; [|reflexivity].
  apply String.eqb_eq in E. contradiction.
Qed.

Section Routes.

Variable isInitializeRequest : value -> bool.

(** X12. A request that presents the id of a live session is handed to
    that session's transport by all three routes, and the state is left
    as it was; on the POST route this holds whatever the body is, so an
    initialization message sent under a live id creates no session. *)
Theorem routes_hand_off_live_session (request : Request) (s : Server)
        (sid : string) (t : nat) :
  sid <> EmptyString -> session_header sid request ->
  transports s !! sid = Some t ->
  post_mcp isInitializeRequest request s = (HandedOff t, s)
  /\ get_mcp request s = (HandedOff t, s)
  /\ delete_mcp request s = (HandedOff t, s).
Proof.
  intros Hne Hh Ht. unfold post_mcp, get_mcp, delete_mcp.
  rewrite (lookup_session_header request s sid Hne Hh).
  unfold get. rewrite Ht. repeat split.
Qed.

Lemma prototype_names_truthy (k : string) : In k Object_prototype -> k <> EmptyString.
Proof.
  unfold Object_prototype. cbn [In].
  intros H. repeat (destruct H as [<- | H]; [discriminate|]). contradiction.
Qed.

(** X13. A request whose session id names a member of [Object.prototype]
    and is not a key of the table makes every route hijack the reply and
    fail on the call of [handleRequest]; none of them answers 400, and
    the state is left as it was. *)
Theorem routes_fail_on_inherited_member (request : Request) (s : Server)
        (sid : string) :
  In sid Object_prototype -> session_header sid request ->
  transports s !! sid = None ->
  post_mcp isInitializeRequest request s = (NotAFunction sid, s)
  /\ get_mcp request s = (NotAFunction sid, s)
  /\ delete_mcp request s = (NotAFunction sid, s).
Proof.
  intros Hin Hh Hnone. unfold post_mcp, get_mcp, delete_mcp.
  rewrite (lookup_session_header request s sid (prototype_names_truthy sid Hin) Hh).
  unfold get. rewrite Hnone.
  apply inherited_iff in Hin. rewrite Hin. repeat split.
Qed.

(** X14. No route touches the table: an entry is added only by
    [onsessioninitialized] and removed only by [onclose].  The GET and
    DELETE routes leave the whole state unchanged, and the POST route at
    most appends one transport, which it also connects. *)
Theorem routes_keep_table (request : Request) (s : Server) :
  transports (snd (post_mcp isInitializeRequest request s)) = transports s
  /\ (snd (post_mcp isInitializeRequest request s) = s
      \/ (objects (snd (post_mcp isInitializeRequest request s))
          = (objects s ++ [ {| sessionId := None |} ])%list
          /\ connects (snd (post_mcp isInitializeRequest request s))
             = (connects s ++ [ length (objects s) ])%list
          /\ fst (post_mcp isInitializeRequest request s)
             = HandedOff (length (objects s))))
  /\ snd (get_mcp request s) = s
  /\ snd (delete_mcp request s) = s.
Proof.
  unfold post_mcp, get_mcp, delete_mcp.
  destruct (lookup_session request s);
    try destruct (negb (isInitializeRequest (body request)));
    cbn [fst snd transports objects connects]; repeat split; auto.
Qed.

End Routes.

Lemma routes_hand_off_live_session_witness :
  post_mcp is_initialize (with_session_id "a1" initialize)
           (onsessioninitialized 0 "a1" initial)
  = (HandedOff 0, onsessioninitialized 0 "a1" initial).
Proof.
  apply (routes_hand_off_live_session is_initialize
           (with_session_id "a1" initialize) (onsessioninitialized 0 "a1" initial)
           "a1" 0);
    [discriminate | reflexivity | reflexivity].
Defined.

Lemma routes_fail_on_inherited_member_witness :
  post_mcp is_initialize (with_session_id "toString" initialize) initial
  = (NotAFunction "toString", initial).
Proof.
  apply (routes_fail_on_inherited_member is_initialize
           (with_session_id "toString" initialize) initial "toString");
    [| reflexivity | reflexivity].
  unfold Object_prototype. cbn [In]. do 8 right. left. reflexivity.
Defined.

(** X15. Once [onsessioninitialized] has stored transport [t] under an
    id that is not empty and is not [__proto__], the one key whose
    assignment creates no entry, a request presenting that id finds [t],
    and requests presenting any other id find what they found before. *)
Theorem onsessioninitialized_lookup (t : nat) (sid : string) (s : Server)
        (request : Request) (other : string) :
  sid <> EmptyString -> sid <> "__proto__" ->
  (session_header sid request ->
   lookup_session request (onsessioninitialized t sid s) = Own t)
  /\ (session_header other request -> other <> sid ->
      lookup_session request (onsessioninitialized t sid s)
      = lookup_session request s).
Proof.
  intros Hne _. split.
  - intros Hh. rewrite (lookup_session_header _ _ sid Hne Hh).
    unfold get, onsessioninitialized. cbn [transports].
    now rewrite lookup_insert_eq.
  - intros Hh Hother. unfold lookup_session. rewrite Hh.
    destruct (truthy other); [|reflexivity].
    unfold get, onsessioninitialized. cbn [transports].
    now rewrite lookup_insert_ne by congruence.
Qed.

Lemma onsessioninitialized_lookup_witness :
  lookup_session (with_session_id "a1" tools_list)
                 (onsessioninitialized 0 "a1" initial) = Own 0.
Proof.
  apply (onsessioninitialized_lookup 0 "a1" initial
           (with_session_id "a1" tools_list) "b2");
    [discriminate | discriminate | reflexivity].
Defined.

(** X16. When a constructed transport is initialized under an id that is
    not empty and not a prototype member name and then closes, a request
    presenting that id is refused with status 400 by all three routes
    (the POST route unless the body is an initialization message). *)
Theorem closed_session_is_refused (isInitializeRequest : value -> bool)
        (uuid : string) (t : nat) (s : Server) (request : Request) :
  uuid <> EmptyString -> ~ In uuid Object_prototype ->
  (t < length (objects s))%nat ->
  session_header uuid request ->
  let s' := transport_close t (transport_initialize uuid t s) in
  (isInitializeRequest (body request) = false ->
   post_mcp isInitializeRequest request s' = (Sent 400 (JsonBody no_valid_session), s'))
  /\ get_mcp request s' = (Sent 400 (TextBody "Invalid or missing session ID"), s')
  /\ delete_mcp request s' = (Sent 400 (TextBody "Invalid or missing session ID"), s').
Proof.
  intros Hne Hproto Ht Hh s'.
  assert (Hl : lookup_session request s' = Missing).
  { rewrite (lookup_session_header request s' uuid Hne Hh).
    assert (Hgone : transports s' !! uuid = None).
    { subst s'.
      unfold transport_close, transport_initialize, onclose, onsessioninitialized.
      cbn [objects transports].
      rewrite (list_lookup_insert_eq _ _ _ Ht).
      cbn [fmap option_fmap option_map sessionId].
      unfold truthy. destruct (String.eqb uuid EmptyString) eqn:E.
      - apply String.eqb_eq in E. contradiction.
      - cbn [negb transports]. apply lookup_delete_eq. }
    unfold get. rewrite Hgone.
    destruct (existsb (String.eqb uuid) Object_prototype) eqn:Ex; [|reflexivity].
    apply inherited_iff in Ex. contradiction. }
  unfold post_mcp, get_mcp, delete_mcp. rewrite Hl.
  split; [intros ->; reflexivity | split; reflexivity].
Qed.

Lemma closed_session_is_refused_witness :
  get_mcp (with_session_id "a1" VUndefined)
          (transport_close 0
             (transport_initialize "a1" 0
                {| objects := [ {| sessionId := None |} ];
                   transports := ∅; connects := [0%nat] |}))
  = (Sent 400 (TextBody "Invalid or missing session ID"),
     transport_close 0
       (transport_initialize "a1" 0
          {| objects := [ {| sessionId := None |} ];
             transports := ∅; connects := [0%nat] |})).
Proof.
  apply (closed_session_is_refused is_initialize "a1" 0
           {| objects := [ {| sessionId := None |} ];
              transports := ∅; connects := [0%nat] |}
           (with_session_id "a1" VUndefined)).
  - discriminate.
  - unfold Object_prototype. cbn [In].
    intros H. repeat (destruct H as [H | H]; [discriminate H|]). exact H.
  - cbn. lia.
  - reflexivity.
Defined.

Lemma consistent_initial : consistent initial.
Proof. intros sid t H. cbn in H. now rewrite lookup_empty in H. Qed.

Lemma consistent_post (isInitializeRequest : value -> bool) (request : Request)
      (s : Server) :
  consistent s -> consistent (snd (post_mcp isInitializeRequest request s)).
Proof.
  intros Hc. unfold post_mcp.
  destruct (lookup_session request s); try exact Hc.
  destruct (negb (isInitializeRequest (body request))); [exact Hc|].
  cbn [snd]. intros sid t H. cbn [transports] in H.
  destruct (Hc sid t H) as [Hne Hs].
  split; [exact Hne|]. cbn [objects].
  destruct (objects s !! t) as [o|] eqn:E; [|discriminate].
  now rewrite (lookup_app_l_Some _ _ _ _ E).
Qed.

Lemma consistent_initialize (uuid : string) (t : nat) (s : Server) :
  uuid <> EmptyString -> sessionId <$> objects s !! t = Some None ->
  consistent s -> consistent (transport_initialize uuid t s).
Proof.
  intros Hne Hfresh Hc sid t'.
  unfold transport_initialize, onsessioninitialized. cbn [transports objects].
  assert (Hlt : (t < length (objects s))%nat).
  { destruct (objects s !! t) eqn:E; [|discriminate].
    eapply lookup_lt_Some; eassumption. }
  destruct (decide (sid = uuid)) as [-> | Hsid].
  - rewrite lookup_insert_eq. intros [= <-]. split; [exact Hne|].
    now rewrite (list_lookup_insert_eq _ _ _ Hlt).
  - rewrite lookup_insert_ne by congruence. intros H.
    destruct (Hc sid t' H) as [Hn Hs]. split; [exact Hn|].
    rewrite list_lookup_insert_ne; [exact Hs|]. intros ->. congruence.
Qed.

Lemma consistent_close (t : nat) (s : Server) :
  consistent s -> consistent (transport_close t s).
Proof.
  intros Hc sid t'. unfold transport_close, onclose.
  destruct (sessionId <$> objects s !! t) as [[sid0|]|]; try apply Hc.
  destruct (truthy sid0); [|apply Hc].
  cbn [transports objects]. intros H.
  apply lookup_delete_Some in H as [_ H]. now apply Hc.
Qed.

(** X17. In every state the server reaches, each entry of the table has
    a non-empty key and names a constructed transport whose session id is
    that key. *)
Theorem reachable_consistent (isInitializeRequest : value -> bool) (s : Server) :
  reachable isInitializeRequest s -> consistent s.
Proof.
  induction 1 as [ | request s _ IH | request s _ IH | request s _ IH
                   | uuid t s _ IH Hne Hfresh | t s _ IH ].
  - exact consistent_initial.
  - now apply consistent_post.
  - unfold get_mcp. destruct (lookup_session request s); exact IH.
  - unfold delete_mcp. destruct (lookup_session request s); exact IH.
  - now apply consistent_initialize.
  - now apply consistent_close.
Qed.

Lemma reachable_consistent_witness :
  consistent
    (transport_initialize "a1" 0
       (snd (post_mcp is_initialize (without_session_id initialize) initial))).
Proof.
  apply (reachable_consistent is_initialize).
  apply reach_initialized; [| discriminate | reflexivity].
  apply reach_post. apply reach_initial.
Defined.

Lemma close_leaves_no_entry (s : Server) (t : nat) :
  consistent s -> no_entry (transport_close t s) t.
Proof.
  intros Hc k.
  unfold transport_close, onclose.
  destruct (sessionId <$> objects s !! t) as [[sid0|]|] eqn:E.
  - destruct (truthy sid0) eqn:Ht.
    + cbn [transports]. intros H. apply lookup_delete_Some in H as [Hk H].
      destruct (Hc k t H) as [_ Hs]. congruence.
    + intros H. destruct (Hc k t H) as [Hk Hs].
      assert (sid0 = k) by congruence. subst sid0.
      unfold truthy in Ht. apply negb_false_iff, String.eqb_eq in Ht. contradiction.
  - intros H. destruct (Hc k t H) as [_ Hs]. congruence.
  - intros H. destruct (Hc k t H) as [_ Hs]. congruence.
Qed.

Lemma onclose_length (t : nat) (s : Server) :
  length (objects (onclose t s)) = length (objects s).
Proof. now rewrite HttpFacts.onclose_objects. Qed.

(** While [t] is not initialized, it stays out of the table and among
    the constructed transports. *)
Lemma later_keeps_out (isInitializeRequest : value -> bool) (t : nat)
      (s s' : Server) :
  later isInitializeRequest t s s' ->
  no_entry s t -> (t < length (objects s))%nat ->
  no_entry s' t /\ (t < length (objects s'))%nat.
Proof.
  intros Hl Hno Hlt.
  induction Hl as [ s | request s s' _ IH | request s s' _ IH | request s s' _ IH
                  | uuid t' s s' _ IH Ht' | t' s s' _ IH ];
    try (specialize (IH Hno Hlt) as [IHno IHlt]).
  - split; assumption.
  - unfold post_mcp. destruct (lookup_session request s'); try (split; assumption).
    destruct (negb (isInitializeRequest (body request))); [split; assumption|].
    cbn [snd]. split.
    + intros k. cbn [transports]. apply IHno.
    + cbn [objects]. rewrite length_app. lia.
  - unfold get_mcp. destruct (lookup_session request s'); split; assumption.
  - unfold delete_mcp. destruct (lookup_session request s'); split; assumption.
  - unfold transport_initialize, onsessioninitialized. cbn [transports objects]. split.
    + intros k. cbn [transports]. destruct (decide (k = uuid)) as [-> | Hk].
      * rewrite lookup_insert_eq. congruence.
      * rewrite lookup_insert_ne by congruence. apply IHno.
    + now rewrite length_insert.
  - unfold transport_close. split.
    + intros k H.
      apply (IHno k). unfold onclose in H.
      destruct (sessionId <$> objects s' !! t') as [[sid0|]|]; try exact H.
      destruct (truthy sid0); [|exact H].
      cbn [transports] in H. now apply lookup_delete_Some in H as [_ H].
    + now rewrite onclose_length.
Qed.

(** X18. Once a constructed transport has closed in a state whose table
    is consistent, no key of the table leads to it, and this stays so
    through every later request, initialization of another transport and
    close: as long as the closed transport is not itself initialized, no
    route hands a request to it. *)
Theorem closed_transport_stays_out (isInitializeRequest : value -> bool)
        (s s' : Server) (t : nat) (request : Request) :
  consistent s -> (t < length (objects s))%nat ->
  later isInitializeRequest t (transport_close t s) s' ->
  no_entry s' t
  /\ fst (post_mcp isInitializeRequest request s') <> HandedOff t
  /\ fst (get_mcp request s') <> HandedOff t
  /\ fst (delete_mcp request s') <> HandedOff t.
Proof.
  intros Hc Hlt Hl.
  assert (Hlt0 : (t < length (objects (transport_close t s)))%nat).
  { unfold transport_close. now rewrite onclose_length. }
  destruct (later_keeps_out _ _ _ _ Hl (close_leaves_no_entry s t Hc) Hlt0)
    as [Hno Hlt'].
  assert (Hlook : lookup_session request s' <> Own t).
  { unfold lookup_session.
    destruct (headers request !! "mcp-session-id") as [sid|]; [|discriminate].
    destruct (truthy sid); [|discriminate].
    unfold get. destruct (transports s' !! sid) as [t0|] eqn:E.
    - intros [= ->]. exact (Hno sid E).
    - destruct (existsb (String.eqb sid) Object_prototype); discriminate. }
  split; [exact Hno|].
  unfold post_mcp, get_mcp, delete_mcp.
  destruct (lookup_session request s') as [t0| |];
    try (repeat split; cbn [fst]; congruence).
  repeat split; cbn [fst]; try discriminate.
  destruct (negb (isInitializeRequest (body request))); cbn [fst]; [discriminate|].
  intros [= H]. lia.
Qed.

Lemma closed_transport_stays_out_witness :
  fst (get_mcp (with_session_id "a1" VUndefined)
         (snd (post_mcp is_initialize (without_session_id initialize)
                 (transport_close 0
                    (transport_initialize "a1" 0
                       (snd (post_mcp is_initialize (without_session_id initialize)
                               initial)))))))
  <> HandedOff 0.
Proof.
  apply (closed_transport_stays_out is_initialize
           (transport_initialize "a1" 0
              (snd (post_mcp is_initialize (without_session_id initialize) initial)))
           (snd (post_mcp is_initialize (without_session_id initialize)
                   (transport_close 0
                      (transport_initialize "a1" 0
                         (snd (post_mcp is_initialize (without_session_id initialize)
                                 initial))))))
           0 (with_session_id "a1" VUndefined)).
  - apply consistent_initialize; [discriminate | reflexivity |].
    apply consistent_post. exact consistent_initial.
  - vm_compute. lia.
  - apply later_post. apply later_now.
Defined.

(** X19. [onclose] never adds an entry and removes at most the entry
    under the closing transport's own session id: every other entry is
    still there afterwards. *)
Theorem onclose_removes_only_own_id (t : nat) (s : Server) (k : string) (t' : nat) :
  (transports (onclose t s) !! k = Some t' -> transports s !! k = Some t')
  /\ (transports s !! k = Some t' ->
      sessionId <$> objects s !! t <> Some (Some k) ->
      transports (onclose t s) !! k = Some t').
Proof.
  unfold onclose.
  destruct (sessionId <$> objects s !! t) as [[sid0|]|]; try (split; auto; fail).
  destruct (truthy sid0); [|split; auto]. cbn [transports]. split.
  - intros H. now apply lookup_delete_Some in H as [_ H].
  - intros H Hk. apply lookup_delete_Some. split; [congruence | exact H].
Qed.

End SessionFacts.

(** ** Startup, in full *)

Module StartupFacts.
Import Config.

(** X20. For any accessor, the configuration is obtained exactly when
    the API key variable is set and not blank and the accessor reads the
    port from [PORT], or from ["3000"] when [PORT] is unset; the key is
    then taken over unchanged.  The key is examined first: when it is
    missing or blank the port is not consulted. *)
Theorem config_succeeds_iff (asIntPositive : string -> string + Z)
        (bind : Z -> string -> option string)
        (env : gmap string string) (c : Config) :
  (config asIntPositive env = inr c
   <-> env !! "GOOGLE_MAPS_API_KEY" = Some (googleMapsApiKey c)
       /\ blank (googleMapsApiKey c) = false
       /\ asIntPositive (default "3000" (env !! "PORT")) = inr (port c))
  /\ (forall e, required_asString "GOOGLE_MAPS_API_KEY" (env !! "GOOGLE_MAPS_API_KEY")
                = inl e ->
                main asIntPositive bind env = Exited e).
Proof.
  unfold main, config, required_asString. split.
  - destruct (env !! "GOOGLE_MAPS_API_KEY") as [k|].
    + destruct (blank k) eqn:Hb.
      * split; [discriminate|]. intros ([= <-] & Hb' & _). congruence.
      * destruct (asIntPositive (default "3000" (env !! "PORT"))) as [e|p] eqn:Hp.
        -- split; [discriminate|]. intros (_ & _ & [=]).
        -- split.
           ++ intros [= <-]. cbn. auto.
           ++ destruct c as [k' p']. cbn. intros ([= <-] & _ & [= <-]). reflexivity.
    + split; [discriminate|]. intros ([=] & _).
  - intros e. destruct (env !! "GOOGLE_MAPS_API_KEY") as [k|].
    + destruct (blank k); [|discriminate]. now intros [= <-].
    + now intros [= <-].
Qed.

End StartupFacts.
